(** * The wallet withdrawal handler (Supabase edge function), embedded in Rocq

    The development follows the source of the handler top to bottom:
    JavaScript values and the string operations the handler uses, the fee
    table [calculateFee], the phone normalisation, the provider lookup, the
    calls to the payment provider and to the database, and finally the
    handler [serve] itself, written in a small monad that threads the
    database and the log of outbound calls and distinguishes the three ways
    a block of the handler can end: normally, by [return new Response(..)],
    or by a thrown exception.

    Conventions of the model:
    - a JavaScript number is an exact rational ([Q]); rounding of binary
      floating point, [NaN] and the infinities are outside the model;
    - a string is a [string] of 8-bit characters; case mapping and the white
      space class are the ASCII ones;
    - a value read from JSON is a [jsval]; property access, truthiness and
      [||] follow the language;
    - the database client answers a call with [{ data, error }] and does not
      throw; the payment provider may answer anything, fail to answer, or
      answer with something that is not JSON. *)

From Stdlib Require Import ZArith QArith Qround Bool List String Ascii Lia Lqa.
From Stdlib Require Import Numbers.DecimalString.
Import ListNotations.

Local Open Scope string_scope.
Set Warnings "-register-all".

(** ** JavaScript values *)

Module JS.

Inductive jsval : Type :=
| JUndef
| JNull
| JBool (b : bool)
| JNum (q : Q)
| JStr (s : string)
| JArr (items : list jsval)
| JObj (fields : list (string * jsval)).

(** [!!v] *)
Definition truthy (v : jsval) : bool :=
  match v with
  | JUndef | JNull => false
  | JBool b => b
  | JNum q => negb (Qeq_bool q 0)
  | JStr s => negb (String.eqb s "")
  | JArr _ | JObj _ => true
  end.

(** [a || b] *)
Definition or_else (a b : jsval) : jsval := if truthy a then a else b.

(** [v === 'lit'] for a string literal *)
Definition is_str (v : jsval) (lit : string) : bool :=
  match v with
  | JStr s => String.eqb s lit
  | _ => false
  end.

Fixpoint assoc (k : string) (fields : list (string * jsval)) : jsval :=
  match fields with
  | [] => JUndef
  | (k', v) :: rest => if String.eqb k k' then v else assoc k rest
  end.

(** A computation that may throw: [inr msg] is a thrown [Error(msg)]. *)
Definition exn (A : Type) : Type := (A + string)%type.

Definition exn_bind {A B} (m : exn A) (f : A -> exn B) : exn B :=
  match m with
  | inl a => f a
  | inr e => inr e
  end.

(** [v.k] for the keys the handler reads (none of them is a built-in
    property of a string, number, boolean or array): reading a property of
    [undefined] or [null] throws a TypeError, a primitive or an array
    yields [undefined]. *)
Definition get (v : jsval) (k : string) : exn jsval :=
  match v with
  | JUndef | JNull => inr ("Cannot read properties of undefined (reading '" ++ k ++ "')")
  | JObj fields => inl (assoc k fields)
  | _ => inl JUndef
  end.

(** [v?.k] *)
Definition get_opt (v : jsval) (k : string) : jsval :=
  match v with
  | JObj fields => assoc k fields
  | _ => JUndef
  end.

(** *** Strings *)

Definition is_space (c : ascii) : bool :=
  let n := nat_of_ascii c in
  ((9 <=? n) && (n <=? 13))%nat || (n =? 32)%nat.

Fixpoint filter_chars (keep : ascii -> bool) (s : string) : string :=
  match s with
  | EmptyString => EmptyString
  | String c rest =>
      if keep c then String c (filter_chars keep rest) else filter_chars keep rest
  end.

Fixpoint trim_start (s : string) : string :=
  match s with
  | EmptyString => EmptyString
  | String c rest => if is_space c then trim_start rest else s
  end.

Fixpoint rev_string (acc s : string) : string :=
  match s with
  | EmptyString => acc
  | String c rest => rev_string (String c acc) rest
  end.

Definition trim_end (s : string) : string :=
  rev_string "" (trim_start (rev_string "" s)).

(** [s.trim()] *)
Definition trim (s : string) : string := trim_end (trim_start s).

(** [s.startsWith(p)] *)
Definition startsWith (s p : string) : bool := String.prefix p s.

(** [s.slice(n)] for a literal [n >= 0] *)
Fixpoint slice (n : nat) (s : string) : string :=
  match n, s with
  | O, _ => s
  | S _, EmptyString => EmptyString
  | S m, String _ rest => slice m rest
  end.

Definition lower_char (c : ascii) : ascii :=
  let n := nat_of_ascii c in
  if ((65 <=? n) && (n <=? 90))%nat then ascii_of_nat (n + 32) else c.

Definition upper_char (c : ascii) : ascii :=
  let n := nat_of_ascii c in
  if ((97 <=? n) && (n <=? 122))%nat then ascii_of_nat (n - 32) else c.

Fixpoint map_chars (f : ascii -> ascii) (s : string) : string :=
  match s with
  | EmptyString => EmptyString
  | String c rest => String (f c) (map_chars f rest)
  end.

Definition toLowerCase (s : string) : string := map_chars lower_char s.
Definition toUpperCase (s : string) : string := map_chars upper_char s.

(** [hay.includes(needle)] *)
Fixpoint includes (hay needle : string) : bool :=
  String.prefix needle hay ||
  match hay with
  | EmptyString => false
  | String _ rest => includes rest needle
  end.

(** [v.toLowerCase()] on a value: only strings have the method. *)
Definition lower_of (v : jsval) : exn string :=
  match v with
  | JStr s => inl (toLowerCase s)
  | JUndef | JNull => inr "Cannot read properties of undefined (reading 'toLowerCase')"
  | _ => inr "toLowerCase is not a function"
  end.

Definition upper_of (v : jsval) : exn string :=
  match v with
  | JStr s => inl (toUpperCase s)
  | JUndef | JNull => inr "Cannot read properties of undefined (reading 'toUpperCase')"
  | _ => inr "toUpperCase is not a function"
  end.

(** *** Numbers to strings *)

Definition string_of_Z (z : Z) : string := NilZero.string_of_int (Z.to_int z).

(** [String(q)]: an integer below 10^21 in magnitude prints as its decimal
    digits; the printing of every other number is left to the runtime,
    [repr]. *)
Definition Number_toString (repr : Q -> string) (q : Q) : string :=
  let r := Qred q in
  if (Qden r =? 1)%positive && (Z.abs (Qnum r) <? 10 ^ 21)%Z
  then string_of_Z (Qnum r)
  else repr q.

(** [String(v)], also the conversion done by a template literal.  An array
    joins its elements with commas, [null] and [undefined] counting as
    empty; an object prints as [[object Object]].  The objects of a request
    are taken to be plain: none has a property of its own named [toString]
    (JSON carries no functions, so such a property would make the
    conversion throw). *)
Fixpoint ToString (repr : Q -> string) (v : jsval) : string :=
  match v with
  | JUndef => "undefined"
  | JNull => "null"
  | JBool true => "true"
  | JBool false => "false"
  | JNum q => Number_toString repr q
  | JStr s => s
  | JObj _ => "[object Object]"
  | JArr items =>
      let item x :=
        match x with
        | JUndef | JNull => ""
        | _ => ToString repr x
        end in
      (fix join (l : list jsval) : string :=
         match l with
         | [] => ""
         | x :: rest =>
             match rest with
             | [] => item x
             | _ :: _ => item x ++ "," ++ join rest
             end
         end) items
  end.

(** [JSON.stringify] of an object literal drops the properties whose value
    is [undefined]; the body of a response is kept as the list of the
    remaining properties. *)
Fixpoint stringify (fields : list (string * jsval)) : list (string * jsval) :=
  match fields with
  | [] => []
  | (k, JUndef) :: rest => stringify rest
  | kv :: rest => kv :: stringify rest
  end.

End JS.
Import JS.

(** ** The fee table (source lines 106-126) *)

Definition Math_max (a b : Z) : Z := Z.max a b.

(** [Math.floor(amt * rate)] *)
Definition Math_floor_mul (amt rate : Q) : Z := Qfloor (amt * rate).

Definition calculateFee (amt : Q) (method : jsval) : Z :=
  if is_str method "mpesa" then
    if Qle_bool amt 100 then 0
    else if Qle_bool amt 2500 then 15
    else if Qle_bool amt 3500 then 25
    else if Qle_bool amt 5000 then 30
    else if Qle_bool amt 7500 then 45
    else if Qle_bool amt 10000 then 50
    else Math_max 50 (Math_floor_mul amt (5 # 1000))
  else if is_str method "airtel" then
    if Qle_bool amt 100 then 0
    else if Qle_bool amt 2500 then 15
    else if Qle_bool amt 5000 then 30
    else Math_max 50 (Math_floor_mul amt (5 # 1000))
  else if is_str method "bank" then
    Math_max 25 (Math_floor_mul amt (1 # 1000))
  else 0%Z.

(** [netAmount = amount - fee] *)
Definition netAmount (amt : Q) (fee : Z) : Q := amt - inject_Z fee.

(** ** Phone normalisation (source lines 219-228) *)

Record phones : Type := { intlPhone : string; localPhone : string }.

Definition normalize_phone (phone_number : string) : phones :=
  let rawPhone := trim phone_number in
  let phoneNoSpaces :=
    filter_chars (fun c => negb (Ascii.eqb c "-"))
      (filter_chars (fun c => negb (is_space c)) rawPhone) in
  let intl0 :=
    if startsWith phoneNoSpaces "+" then slice 1 phoneNoSpaces else phoneNoSpaces in
  let intl :=
    if startsWith intl0 "0" then "254" ++ slice 1 intl0
    else if negb (startsWith intl0 "254") then "254" ++ intl0
    else intl0 in
  {| intlPhone := intl;
     localPhone := if startsWith intl "254" then "0" ++ slice 3 intl else phoneNoSpaces |}.


(** ** Responses, the outside world, and the state of a request *)

(** A [Response]: its status and its JSON body ([None] for the body-less
    answer to a preflight request).  Every response carries the same CORS
    headers, which the model leaves out. *)
Record response : Type := { status : Z; body : option (list (string * jsval)) }.

Definition json_response (st : Z) (fields : list (string * jsval)) : response :=
  {| status := st; body := Some (stringify fields) |}.

Definition field (r : response) (k : string) : jsval :=
  match body r with
  | Some fields => assoc k fields
  | None => JUndef
  end.

Record user : Type := { user_id : string; user_email : jsval }.

(** The three calls the handler makes to the payment provider, with the
    fields of their JSON bodies that vary (the currency, the metadata, the
    reason and the reference of a transfer are not recorded). *)
Inductive api_call : Type :=
| ListProviders
| CreateRecipient (type : string) (name account_number bank_code : jsval)
| Transfer (amount : Z) (recipient : jsval).

(** What [await fetch(..)] followed by [await resp.json()] yields: the fetch
    rejects, or it resolves to a response with its [ok] flag whose body is
    JSON ([Some]) or is not ([None], [resp.json()] rejects). *)
Inductive fetched : Type :=
| NetworkError (msg : string)
| HttpResponse (ok : bool) (json : option jsval).

Record ledger_row : Type := {
  row_user_id : string;
  row_amount : Q;
  row_description : string;
  row_reference_id : jsval;
  row_payment_method : jsval;
  row_destination_details : jsval;
  row_fee : Z;
  row_net_amount : Q
}.

Inductive db_call : Type :=
| SelectWallet
| UpdateWallet (balance : Q)
| InsertTransaction (row : ledger_row).

(** The log of a request: every outbound call with the answer it got. *)
Inductive event : Type :=
| Provider (call : api_call) (answer : fetched)
| Database (call : db_call) (error : option string).

(** The user's row of [user_central_wallets] (its balance) and the rows of
    [wallet_transactions]. *)
Record database : Type := { wallet : option Q; wallet_transactions : list ledger_row }.

Record state : Type := { db : database; log : list event }.

(** What creating the client and [auth.getUser()] yield: an exception, or
    the pair of [data.user] and [error]. *)
Inductive user_lookup : Type :=
| AuthThrows (msg : string)
| AuthResult (found : option user) (error : option string).

(** Everything the handler does not decide itself.  The provider and the
    database answer as a function of the calls made so far, so that any
    sequence of answers is some world.  A database call answers with an
    error or succeeds; it does not throw (the query builder resolves to
    [{ data, error }], which is how the handler reads it). *)
Record world : Type := {
  getUser : user_lookup;
  PAYSTACK_SECRET_KEY : option string;
  paystack : list event -> api_call -> fetched;
  db_fault : list event -> db_call -> option string;
  Date_now : list event -> Z;
  number_repr : Q -> string
}.

Record request : Type := { method : string; json_body : option jsval }.

(** ** The monad of the handler *)

Inductive completion (A : Type) : Type :=
| Normal (a : A)
| Return (r : response)
| Throw (msg : string).
Arguments Normal {A} a.
Arguments Return {A} r.
Arguments Throw {A} msg.

Definition M (A : Type) : Type := state -> completion A * state.

Definition ret {A} (a : A) : M A := fun s => (Normal a, s).

Definition bind {A B} (m : M A) (f : A -> M B) : M B :=
  fun s =>
    match m s with
    | (Normal a, s') => f a s'
    | (Return r, s') => (Return r, s')
    | (Throw e, s') => (Throw e, s')
    end.

Declare Scope handler_scope.
Delimit Scope handler_scope with handler.
Notation "x <- m ;; k" := (bind m (fun x => k))
  (at level 61, m at next level, right associativity) : handler_scope.
Notation "m ;; k" := (bind m (fun _ => k))
  (at level 61, right associativity) : handler_scope.
Local Open Scope handler_scope.

(** [return r] *)
Definition respond {A} (r : response) : M A := fun s => (Return r, s).

(** [return new Response(JSON.stringify(fields), { status })] *)
Definition reply {A} (st : Z) (fields : list (string * jsval)) : M A :=
  respond (json_response st fields).

Definition throw {A} (msg : string) : M A := fun s => (Throw msg, s).

Definition lift {A} (e : exn A) : M A :=
  match e with
  | inl a => ret a
  | inr msg => throw msg
  end.

Definition record (e : event) (s : state) : state :=
  {| db := db s; log := log s ++ [e] |}.

Definition fetch (w : world) (call : api_call) : M fetched :=
  fun s =>
    let answer := paystack w (log s) call in
    (Normal answer, record (Provider call answer) s).

Definition clock (w : world) : M Z := fun s => (Normal (Date_now w (log s)), s).

(** [.from('user_central_wallets').select('balance').eq(..).single()]:
    the pair [(data, error)]. *)
Definition select_wallet (w : world) : M (option Q * option string) :=
  fun s =>
    let answer :=
      match db_fault w (log s) SelectWallet with
      | Some e => (None, Some e)
      | None =>
          match wallet (db s) with
          | Some balance => (Some balance, None)
          | None => (None, Some "JSON object requested, multiple (or no) rows returned")
          end
      end in
    (Normal answer, record (Database SelectWallet (snd answer)) s).

(** [.from('user_central_wallets').update({ balance, .. }).eq(..)] *)
Definition update_wallet (w : world) (balance : Q) : M (option string) :=
  fun s =>
    let error := db_fault w (log s) (UpdateWallet balance) in
    let db' :=
      match error, wallet (db s) with
      | None, Some _ =>
          {| wallet := Some balance; wallet_transactions := wallet_transactions (db s) |}
      | _, _ => db s
      end in
    (Normal error, {| db := db'; log := log s ++ [Database (UpdateWallet balance) error] |}).

(** [.from('wallet_transactions').insert(row)] *)
Definition insert_transaction (w : world) (row : ledger_row) : M (option string) :=
  fun s =>
    let error := db_fault w (log s) (InsertTransaction row) in
    let db' :=
      match error with
      | None =>
          {| wallet := wallet (db s);
             wallet_transactions := wallet_transactions (db s) ++ [row] |}
      | Some _ => db s
      end in
    (Normal error, {| db := db'; log := log s ++ [Database (InsertTransaction row) error] |}).

(** ** The handler, stage by stage *)

(** What the validations of lines 25-103 establish and hand on. *)
Record validated : Type := {
  c_user : user;
  c_amount : Q;
  c_method : jsval;
  c_details : jsval;
  c_balance : Q;
  c_key : string
}.

(** Lines 25-31. *)
Definition authenticate (w : world) : M user :=
  match getUser w with
  | AuthThrows msg => throw msg
  | AuthResult found error =>
      match error, found with
      | None, Some u => ret u
      | _, _ => reply 401 [("error", JStr "Unauthorized")]
      end
  end.

(** Line 33: [const { amount, paymentMethod, destinationDetails } =
    await req.json()]. *)
Definition read_request (req : request) : M (jsval * jsval * jsval) :=
  match json_body req with
  | None => throw "Unexpected end of JSON input"
  | Some b =>
      amount <- lift (get b "amount") ;;
      paymentMethod <- lift (get b "paymentMethod") ;;
      destinationDetails <- lift (get b "destinationDetails") ;;
      ret (amount, paymentMethod, destinationDetails)
  end.

(** Lines 38-47: [!amount || typeof amount !== 'number' || amount <= 0]. *)
Definition check_amount (amount : jsval) : M Q :=
  let invalid :=
    reply 400 [("error", JStr "Please enter a valid withdrawal amount");
               ("success", JBool false);
               ("code", JStr "invalid_amount")] in
  match amount with
  | JNum q => if negb (truthy amount) || Qle_bool q 0 then invalid else ret q
  | _ => invalid
  end.

(** Lines 49-71. *)
Definition check_destination (paymentMethod destinationDetails : jsval) : M unit :=
  if negb (truthy destinationDetails) then
    reply 400 [("error", JStr "Destination details required")]
  else if is_str paymentMethod "bank" then
    account_number <- lift (get destinationDetails "account_number") ;;
    bank_name <- lift (get destinationDetails "bank_name") ;;
    account_name <- lift (get destinationDetails "account_name") ;;
    if negb (truthy account_number) || negb (truthy bank_name) || negb (truthy account_name)
    then reply 400 [("error", JStr "Bank account details incomplete")]
    else ret tt
  else
    phone_number <- lift (get destinationDetails "phone_number") ;;
    if negb (truthy phone_number)
    then reply 400 [("error", JStr "Phone number required for mobile money withdrawal")]
    else ret tt.

(** [a < b] on numbers *)
Definition Qlt_bool (a b : Q) : bool := negb (Qle_bool b a).

(** Lines 73-93. *)
Definition check_wallet (w : world) (amount : Q) : M Q :=
  answer <- select_wallet w ;;
  match answer with
  | (Some balance, None) =>
      if Qlt_bool balance amount
      then reply 400 [("error", JStr "Insufficient balance"); ("success", JBool false)]
      else ret balance
  | _ => reply 404 [("error", JStr "Wallet not found"); ("success", JBool false)]
  end.

(** Lines 96-103. *)
Definition check_key (w : world) : M string :=
  match PAYSTACK_SECRET_KEY w with
  | Some key =>
      if String.eqb key ""
      then reply 500 [("error", JStr "Payment service not configured"); ("success", JBool false)]
      else ret key
  | None => reply 500 [("error", JStr "Payment service not configured"); ("success", JBool false)]
  end.

(** Lines 25-103 together. *)
Definition validate (w : world) (req : request) : M validated :=
  u <- authenticate w ;;
  fields <- read_request req ;;
  let '(amount, paymentMethod, destinationDetails) := fields in
  amt <- check_amount amount ;;
  check_destination paymentMethod destinationDetails ;;
  balance <- check_wallet w amt ;;
  key <- check_key w ;;
  ret {| c_user := u; c_amount := amt; c_method := paymentMethod;
         c_details := destinationDetails; c_balance := balance; c_key := key |}.

(** Lines 128-142: the fee and the net amount, and the rejection of an
    amount the fee would consume. *)
Definition fee_check (w : world) (c : validated) : M (Z * Q) :=
  let fee := calculateFee (c_amount c) (c_method c) in
  let net := netAmount (c_amount c) fee in
  if Qle_bool net 0 then
    reply 400 [("error", JStr ("Withdrawal amount too low. Minimum amount after fees: KES "
                               ++ Number_toString (number_repr w) (inject_Z (fee + 1))));
               ("success", JBool false);
               ("code", JStr "amount_too_low");
               ("fee", JNum (inject_Z fee))]
  else ret (fee, net).

(** *** Mobile money: the provider list (lines 157-215) *)

Definition list_providers (w : world) : M jsval :=
  answer <- fetch w ListProviders ;;
  match answer with
  | NetworkError msg => throw msg
  | HttpResponse _ None =>
      reply 500 [("error", JStr "Payment service error"); ("success", JBool false)]
  | HttpResponse ok (Some banksData) =>
      failed <- (if negb ok then ret true
                 else st <- lift (get banksData "status") ;; ret (negb (truthy st))) ;;
      if failed : bool then
        message <- lift (get banksData "message") ;;
        reply 400 [("error", or_else message (JStr "Failed to fetch mobile money providers"));
                   ("success", JBool false)]
      else ret banksData
  end.

(** The callback of [banksData.data.find] (lines 193-204). *)
Definition matches_provider (paymentMethod bank : jsval) : exn bool :=
  exn_bind (get bank "name") (fun n =>
  exn_bind (lower_of (or_else n (JStr ""))) (fun name =>
  exn_bind (get bank "slug") (fun sl =>
  exn_bind (lower_of (or_else sl (JStr ""))) (fun slug =>
  exn_bind (get bank "code") (fun cd =>
  exn_bind (upper_of (or_else cd (JStr ""))) (fun code =>
  inl (if is_str paymentMethod "mpesa" then
         String.eqb code "MPESA" || includes name "m-pesa" || includes name "mpesa"
         || includes slug "m-pesa" || includes slug "mpesa"
       else if is_str paymentMethod "airtel" then
         String.eqb code "ATL_KE" || includes name "airtel" || includes slug "airtel"
       else false))))))).

(** [Array.prototype.find]: the first element the callback accepts, or
    [undefined]. *)
Fixpoint find_provider (paymentMethod : jsval) (banks : list jsval) : exn jsval :=
  match banks with
  | [] => inl JUndef
  | bank :: rest =>
      exn_bind (matches_provider paymentMethod bank) (fun hit =>
      if hit : bool then inl bank else find_provider paymentMethod rest)
  end.

Definition select_provider (paymentMethod banksData : jsval) : M jsval :=
  data <- lift (get banksData "data") ;;
  provider <-
    match data with
    | JArr banks => lift (find_provider paymentMethod banks)
    | JUndef | JNull => throw "Cannot read properties of undefined (reading 'find')"
    | _ => throw "banksData.data.find is not a function"
    end ;;
  if negb (truthy provider) then
    name <- lift (upper_of paymentMethod) ;;
    reply 400 [("error", JStr (name ++ " provider not available")); ("success", JBool false)]
  else ret provider.

(** *** Mobile money: the recipient (lines 232-292) *)

(** What [createRecipientWithPhone] returns. *)
Record attempt : Type := { ok : jsval; data : jsval; message : jsval }.

Definition attempt_of (answer : fetched) : attempt :=
  match answer with
  | NetworkError msg => {| ok := JBool false; data := JNull; message := JStr msg |}
  | HttpResponse _ None =>
      {| ok := JBool false; data := JNull; message := JStr "Payment service error" |}
  | HttpResponse resp_ok (Some d) =>
      {| ok := if resp_ok then get_opt d "status" else JBool false;
         data := d;
         message := get_opt d "message" |}
  end.

Definition mobile_recipient_call (c : validated) (provider : jsval) (phone : string) : api_call :=
  CreateRecipient "mobile_money" (or_else (user_email (c_user c)) (JStr "User"))
    (JStr phone) (get_opt provider "code").

Definition createRecipientWithPhone
    (w : world) (c : validated) (provider : jsval) (phone : string) : M attempt :=
  answer <- fetch w (mobile_recipient_call c provider phone) ;;
  ret (attempt_of answer).

(** The test of line 276. *)
Definition rejected_as_invalid_account (r : attempt) : bool :=
  negb (truthy (ok r)) &&
  match message r with
  | JStr m => includes (toLowerCase m) "account number is invalid"
  | _ => false
  end.

(** Lines 274-279: the international form first, the local form if the
    provider rejected the account number. *)
Definition create_mobile_recipient
    (w : world) (c : validated) (provider : jsval) (ph : phones) : M attempt :=
  first <- createRecipientWithPhone w c provider (intlPhone ph) ;;
  if rejected_as_invalid_account first
  then createRecipientWithPhone w c provider (localPhone ph)
  else ret first.

(** The refusal of lines 283-289. *)
Definition recipient_refusal (recipientResp : attempt) : response :=
  json_response 400
    [("error", or_else (message recipientResp) (JStr "Failed to create recipient"));
     ("success", JBool false)].

(** Lines 281-292. *)
Definition recipient_code (recipientResp : attempt) : M jsval :=
  if negb (truthy (ok recipientResp)) then
    respond (recipient_refusal recipientResp)
  else
    d <- lift (get (data recipientResp) "data") ;;
    lift (get d "recipient_code").

Definition mobile_recipient (w : world) (c : validated) : M jsval :=
  banksData <- list_providers w ;;
  provider <- select_provider (c_method c) banksData ;;
  phone_number <- lift (get (c_details c) "phone_number") ;;
  let ph := normalize_phone (ToString (number_repr w) (or_else phone_number (JStr ""))) in
  recipientResp <- create_mobile_recipient w c provider ph ;;
  recipient_code recipientResp.

(** *** Bank: the recipient (lines 294-324) *)

Definition bank_recipient (w : world) (c : validated) : M jsval :=
  account_name <- lift (get (c_details c) "account_name") ;;
  account_number <- lift (get (c_details c) "account_number") ;;
  bank_name <- lift (get (c_details c) "bank_name") ;;
  answer <- fetch w (CreateRecipient "nuban" account_name account_number bank_name) ;;
  match answer with
  | NetworkError msg => throw msg
  | HttpResponse _ None => throw "Unexpected end of JSON input"
  | HttpResponse resp_ok (Some recipientData) =>
      failed <- (if negb resp_ok then ret true
                 else st <- lift (get recipientData "status") ;; ret (negb (truthy st))) ;;
      if failed : bool then
        msg <- lift (get recipientData "message") ;;
        reply 400 [("error", or_else msg (JStr "Failed to create bank recipient"));
                   ("success", JBool false)]
      else
        d <- lift (get recipientData "data") ;;
        lift (get d "recipient_code")
  end.

(** Lines 153-324. *)
Definition resolve_recipient (w : world) (c : validated) : M jsval :=
  if is_str (c_method c) "mpesa" || is_str (c_method c) "airtel"
  then mobile_recipient w c
  else bank_recipient w c.

(** *** The transfer (lines 326-400) *)

(** [Math.round(x)]: the nearest integer, halves upwards. *)
Definition Math_round (x : Q) : Z := Qfloor (x + (1 # 2)).

Definition initiate_transfer (w : world) (net : Q) (recipientCode : jsval) : M jsval :=
  answer <- fetch w (Transfer (Math_round (net * 100)) recipientCode) ;;
  match answer with
  | NetworkError _ =>
      reply 500 [("error", JStr "Network error. Please try again."); ("success", JBool false)]
  | HttpResponse _ None =>
      reply 500 [("error", JStr "Payment service error"); ("success", JBool false)]
  | HttpResponse resp_ok (Some transferData) =>
      failed <- (if negb resp_ok then ret true
                 else st <- lift (get transferData "status") ;; ret (negb (truthy st))) ;;
      if failed : bool then
        msg <- lift (get transferData "message") ;;
        let errorMessage := or_else msg (JStr "Transfer failed") in
        code <- lift (get transferData "code") ;;
        exhausted <- (if is_str code "insufficient_balance" then ret true
                      else m <- lift (lower_of errorMessage) ;;
                           ret (includes m "balance is not enough")) ;;
        reply 400 [("error",
                    if exhausted : bool
                    then JStr "Service temporarily unavailable. Please try again later or contact support."
                    else errorMessage);
                   ("success", JBool false);
                   ("code", code)]
      else ret transferData
  end.

(** *** Finalisation (lines 402-462) *)

Definition destination_of (w : world) (c : validated) : M jsval :=
  if is_str (c_method c) "bank" then
    bank_name <- lift (get (c_details c) "bank_name") ;;
    account_number <- lift (get (c_details c) "account_number") ;;
    ret (JStr (ToString (number_repr w) bank_name ++ " - "
               ++ ToString (number_repr w) account_number))
  else lift (get (c_details c) "phone_number").

Definition finalize (w : world) (c : validated) (fee : Z) (transferData : jsval) : M response :=
  updateError <- update_wallet w (c_balance c - c_amount c) ;;
  match updateError with
  | Some _ => reply 500 [("error", JStr "Failed to update wallet"); ("success", JBool false)]
  | None =>
      destination <- destination_of w c ;;
      let reference := get_opt (get_opt transferData "data") "reference" in
      t <- clock w ;;
      _ <- insert_transaction w
        {| row_user_id := user_id (c_user c);
           row_amount := - c_amount c;
           row_description :=
             "Withdrawal to " ++ ToString (number_repr w) destination
             ++ " (Fee: KES " ++ Number_toString (number_repr w) (inject_Z fee) ++ ")";
           row_reference_id :=
             or_else reference (JStr ("WD" ++ Number_toString (number_repr w) (inject_Z t)));
           row_payment_method := c_method c;
           row_destination_details := c_details c;
           row_fee := fee;
           row_net_amount := c_amount c - inject_Z fee |} ;;
      reply 200 [("success", JBool true);
                 ("message", JStr "Withdrawal successful");
                 ("amount", JNum (c_amount c));
                 ("fee", JNum (inject_Z fee));
                 ("netAmount", JNum (c_amount c - inject_Z fee));
                 ("destination", destination);
                 ("paymentMethod", c_method c);
                 ("reference", reference);
                 ("newBalance", JNum (c_balance c - c_amount c))]
  end.

(** *** The handler (lines 9-472) *)

Definition withdraw (w : world) (req : request) : M response :=
  c <- validate w req ;;
  charged <- fee_check w c ;;
  let '(fee, net) := charged in
  recipientCode <- resolve_recipient w c ;;
  transferData <- initiate_transfer w net recipientCode ;;
  finalize w c fee transferData.

Definition serve (w : world) (req : request) (s : state) : response * state :=
  if String.eqb (method req) "OPTIONS" then ({| status := 200; body := None |}, s)
  else
    match withdraw w req s with
    | (Normal r, s') => (r, s')
    | (Return r, s') => (r, s')
    | (Throw msg, s') =>
        (json_response 500 [("error", JStr "Internal server error"); ("details", JStr msg)], s')
    end.

(** ** Sample requests and worlds *)

Definition alice : user :=
  {| user_id := "3f2c1a9e-77aa-4b1c-9d2e-000000000001"; user_email := JStr "alice@example.com" |}.

Definition provider_ok (payload : list (string * jsval)) : fetched :=
  HttpResponse true (Some (JObj [("status", JBool true); ("message", JStr "ok");
                                 ("data", JObj payload)])).

Definition provider_error (msg : string) : fetched :=
  HttpResponse false (Some (JObj [("status", JBool false); ("message", JStr msg)])).

Definition mobile_money_list : fetched :=
  HttpResponse true (Some (JObj [
    ("status", JBool true);
    ("data", JArr [
       JObj [("name", JStr "Airtel Kenya"); ("slug", JStr "airtel-kenya"); ("code", JStr "ATL_KE")];
       JObj [("name", JStr "M-PESA"); ("slug", JStr "m-pesa"); ("code", JStr "MPESA")]])])).

(** A provider that lists the channels, accepts every recipient and every
    transfer. *)
Definition paystack_up (call : api_call) : fetched :=
  match call with
  | ListProviders => mobile_money_list
  | CreateRecipient _ _ _ _ => provider_ok [("recipient_code", JStr "RCP_1")]
  | Transfer _ _ => provider_ok [("reference", JStr "WD-REF-1")]
  end.

Definition world_of (answers : list event -> api_call -> fetched)
    (faults : db_call -> option string) : world :=
  {| getUser := AuthResult (Some alice) None;
     PAYSTACK_SECRET_KEY := Some "sk_live_key";
     paystack := answers;
     db_fault := fun _ => faults;
     Date_now := fun _ => 1700000000000%Z;
     number_repr := fun _ => "" |}.

Definition calm : world := world_of (fun _ => paystack_up) (fun _ => None).

Definition post (fields : list (string * jsval)) : request :=
  {| method := "POST"; json_body := Some (JObj fields) |}.

Definition mobile_request (amount : Q) (paymentMethod phone : string) : request :=
  post [("amount", JNum amount); ("paymentMethod", JStr paymentMethod);
        ("destinationDetails", JObj [("phone_number", JStr phone)])].

Definition bank_request (amount : Q) : request :=
  post [("amount", JNum amount); ("paymentMethod", JStr "bank");
        ("destinationDetails",
         JObj [("account_number", JStr "0123456789"); ("bank_name", JStr "KCB");
               ("account_name", JStr "Alice W")])].

Definition holding (balance : Q) : state :=
  {| db := {| wallet := Some balance; wallet_transactions := [] |}; log := [] |}.


(** A provider that lists the channels and answers every recipient
    creation with the error [msg]. *)
Definition paystack_rejecting (msg : string) (call : api_call) : fetched :=
  match call with
  | ListProviders => mobile_money_list
  | CreateRecipient _ _ _ _ => provider_error msg
  | Transfer _ _ => provider_ok [("reference", JStr "WD-REF-1")]
  end.

Definition fussy : world :=
  world_of (fun _ => paystack_rejecting "Account number is invalid") (fun _ => None).

(** A provider that rejects the international form of the phone and accepts
    the local one. *)
Definition paystack_local_only (call : api_call) : fetched :=
  match call with
  | CreateRecipient _ _ (JStr phone) _ =>
      if startsWith phone "254" then provider_error "Account number is invalid"
      else provider_ok [("recipient_code", JStr "RCP_2")]
  | _ => paystack_up call
  end.

Definition local_only : world := world_of (fun _ => paystack_local_only) (fun _ => None).

(** A database that takes the wallet update and fails the ledger insert. *)
Definition ledger_down : world :=
  world_of (fun _ => paystack_up)
    (fun call =>
       match call with
       | InsertTransaction _ => Some "insert into wallet_transactions failed"
       | _ => None
       end).

(** A caller whose credential does not resolve to a user. *)
Definition stranger : world :=
  {| getUser := AuthResult None (Some "invalid JWT");
     PAYSTACK_SECRET_KEY := Some "sk_live_key";
     paystack := fun _ => paystack_up;
     db_fault := fun _ _ => None;
     Date_now := fun _ => 1700000000000%Z;
     number_repr := fun _ => "" |}.

(** ** The fee table as the specification words it

    One rule per line of the table: the first tier whose bound the amount
    does not exceed decides. *)

Definition half_percent (amt : Q) : Z := Z.max 50 (Qfloor (amt * (5 # 1000))).
Definition tenth_percent (amt : Q) : Z := Z.max 25 (Qfloor (amt * (1 # 1000))).


(** The tier of the table an amount falls in, counted from 0 within its
    method: the position of the [return] the source reaches. *)
Definition tier (amt : Q) (method : jsval) : nat :=
  if is_str method "mpesa" then
    if Qle_bool amt 100 then 0
    else if Qle_bool amt 2500 then 1
    else if Qle_bool amt 3500 then 2
    else if Qle_bool amt 5000 then 3
    else if Qle_bool amt 7500 then 4
    else if Qle_bool amt 10000 then 5
    else 6
  else if is_str method "airtel" then
    if Qle_bool amt 100 then 0
    else if Qle_bool amt 2500 then 1
    else if Qle_bool amt 5000 then 2
    else 3
  else 0%nat.

(** The tiers whose fee is a constant: all but the last of a mobile-money
    method, and the single tier of an unknown method. *)
Definition fixed_tier (amt : Q) (method : jsval) : bool :=
  if is_str method "mpesa" then Qle_bool amt 10000
  else if is_str method "airtel" then Qle_bool amt 5000
  else negb (is_str method "bank").

(** ** Phone normalisation as the specification words it

    Strip white space and dashes; remove a leading [+]; replace a leading
    [0] by [254]; prefix [254] when neither [0] nor [254] leads. *)

Definition strip_separators (raw : string) : string :=
  filter_chars (fun c => negb (is_space c) && negb (Ascii.eqb c "-")) raw.

Definition drop_plus (d : string) : string :=
  match d with
  | String "+" rest => rest
  | _ => d
  end.

Definition international (d : string) : string :=
  match d with
  | String "0" rest => "254" ++ rest
  | _ => if String.prefix "254" d then d else "254" ++ d
  end.

(** ** Vocabulary for the properties *)

Definition succeeded (r : response) : Prop := field r "success" = JBool true.

(** A response that refuses the withdrawal. *)
Definition refusal (r : response) : Prop :=
  In (status r) [400; 401; 404; 500]%Z /\
  field r "error" <> JUndef /\
  (field r "success" = JBool false \/ field r "success" = JUndef).

(** [s'] continues [s]: same database, and the calls logged since all
    satisfy [E]. *)
Definition continues (E : event -> Prop) (s s' : state) : Prop :=
  db s' = db s /\ exists evs, log s' = (log s ++ evs)%list /\ Forall E evs.

(** A stage that leaves the database alone, makes only calls in [E], and
    returns early only to refuse. *)
Definition inert {A} (E : event -> Prop) (m : M A) : Prop :=
  forall s c s', m s = (c, s') ->
    continues E s s' /\ (forall r, c = Return r -> refusal r).

(** The kinds of outbound call. *)
Definition writes (e : event) : bool :=
  match e with
  | Database (UpdateWallet _) _ | Database (InsertTransaction _) _ => true
  | _ => false
  end.

Definition creates (type : string) (e : event) : bool :=
  match e with
  | Provider (CreateRecipient t _ _ _) _ => String.eqb t type
  | _ => false
  end.

Definition transfers (e : event) : bool :=
  match e with Provider (Transfer _ _) _ => true | _ => false end.

(** The mobile-money recipient creations of a log, in order: the account
    number sent, and what [createRecipientWithPhone] made of the answer. *)
Fixpoint recipient_attempts (evs : list event) : list (jsval * attempt) :=
  match evs with
  | [] => []
  | Provider (CreateRecipient t _ account_number _) answer :: rest =>
      if String.eqb t "mobile_money"
      then (account_number, attempt_of answer) :: recipient_attempts rest
      else recipient_attempts rest
  | _ :: rest => recipient_attempts rest
  end.

(** The phone number a request asks to be paid to, as the handler reads it. *)
Definition requested_phone (w : world) (req : request) : phones :=
  let details :=
    match json_body req with
    | Some b => get_opt b "destinationDetails"
    | None => JUndef
    end in
  normalize_phone
    (ToString (number_repr w) (or_else (get_opt details "phone_number") (JStr ""))).

(** A call that is neither the creation of a mobile-money recipient nor a
    transfer. *)
Definition aside (e : event) : Prop :=
  creates "mobile_money" e = false /\ transfers e = false.

(** How the handler goes on from the recipient response [a] it settled
    on: it refuses with [recipient_refusal a] exactly when [a.ok] is
    falsy. *)
Definition settles {A} (a : attempt) (out : completion A) : Prop :=
  match out with
  | Return r => truthy (ok a) = false /\ r = recipient_refusal a
  | _ => truthy (ok a) = true
  end.

(** How a run of a stage that did not end normally ends the handler. *)
Definition stopped {A B} (m : M A) (s s' : state) (out : completion B) : Prop :=
  (exists r, m s = (Return r, s') /\ out = Return r) \/
  (exists e, m s = (Throw e, s') /\ out = Throw e).

Definition refused {A} (out : completion A) : Prop :=
  match out with
  | Normal _ => False
  | Return r => refusal r
  | Throw _ => True
  end.

(** The shapes the mobile-money attempts of a run can take, for the phone
    [ph]: none; the international form alone, not rejected as an invalid
    account number; or the international form, so rejected, followed by the
    local form.  [P] is what is known of the attempt the handler settled
    on. *)
Definition attempts_shape (ph : phones) (evs : list event) (P : attempt -> Prop) : Prop :=
  recipient_attempts evs = [] \/
  (exists a1,
      recipient_attempts evs = [(JStr (intlPhone ph), a1)] /\
      rejected_as_invalid_account a1 = false /\ P a1) \/
  (exists a1 a2,
      recipient_attempts evs = [(JStr (intlPhone ph), a1); (JStr (localPhone ph), a2)] /\
      rejected_as_invalid_account a1 = true /\ P a2).

(** The phone of a validated request. *)
Definition phone_of (w : world) (c : validated) : phones :=
  normalize_phone
    (ToString (number_repr w) (or_else (get_opt (c_details c) "phone_number") (JStr ""))).

(** ** Vocabulary for the further properties *)

(** A string without white space or dashes. *)
Fixpoint no_separators (s : string) : bool :=
  match s with
  | EmptyString => true
  | String c rest => negb (is_space c) && negb (Ascii.eqb c "-") && no_separators rest
  end.

(** What a request, a world and a database must be like for the
    validations of lines 25-103 to pass and hand on [c]. *)
Definition acceptable (w : world) (req : request) (s : state) (c : validated) : Prop :=
  getUser w = AuthResult (Some (c_user c)) None /\
  (exists b, json_body req = Some b /\
             get b "amount" = inl (JNum (c_amount c)) /\
             get b "paymentMethod" = inl (c_method c) /\
             get b "destinationDetails" = inl (c_details c)) /\
  0 < c_amount c /\
  truthy (c_details c) = true /\
  (if is_str (c_method c) "bank"
   then truthy (get_opt (c_details c) "account_number")
        && truthy (get_opt (c_details c) "bank_name")
        && truthy (get_opt (c_details c) "account_name") = true
   else truthy (get_opt (c_details c) "phone_number") = true) /\
  db_fault w (log s) SelectWallet = None /\
  wallet (db s) = Some (c_balance c) /\
  c_amount c <= c_balance c /\
  PAYSTACK_SECRET_KEY w = Some (c_key c) /\
  c_key c <> "".

(** An authenticated request, not a preflight, whose body is an object
    with a positive numeric amount [amt], the payment method [pm] and the
    destination details [dd]. *)
Definition well_formed (w : world) (req : request) (amt : Q) (pm dd : jsval) : Prop :=
  String.eqb (method req) "OPTIONS" = false /\
  (exists u, getUser w = AuthResult (Some u) None) /\
  (exists b, json_body req = Some b /\ get b "amount" = inl (JNum amt) /\
             get b "paymentMethod" = inl pm /\ get b "destinationDetails" = inl dd) /\
  0 < amt.

(** The destination details the method [pm] asks for are there. *)
Definition destination_given (pm dd : jsval) : Prop :=
  truthy dd = true /\
  (if is_str pm "bank"
   then truthy (get_opt dd "account_number") && truthy (get_opt dd "bank_name")
        && truthy (get_opt dd "account_name") = true
   else truthy (get_opt dd "phone_number") = true).


(** A call that neither asks for a transfer nor writes to the database. *)
Definition harmless (e : event) : Prop := transfers e = false /\ writes e = false.

(** The row the handler writes to the ledger for the validated request [c]
    and the fee [fee]. *)
Definition records_withdrawal (row : ledger_row) (c : validated) (fee : Z) : Prop :=
  row_user_id row = user_id (c_user c) /\
  row_amount row = - c_amount c /\
  row_fee row = fee /\
  row_net_amount row = c_amount c - inject_Z fee /\
  row_payment_method row = c_method c /\
  row_destination_details row = c_details c.

(** The payment method a request names, as the handler reads it. *)
Definition requested_method (req : request) : jsval :=
  match json_body req with
  | Some b => get_opt b "paymentMethod"
  | None => JUndef
  end.

(** A request for the mobile-money channel list. *)
Definition lists (e : event) : bool :=
  match e with Provider ListProviders _ => true | _ => false end.

(** A stage whose calls all satisfy [E], whatever else it does. *)
Definition logs {A} (E : event -> Prop) (m : M A) : Prop :=
  forall s out s', m s = (out, s') ->
    exists evs, log s' = (log s ++ evs)%list /\ Forall E evs.

(** * Properties *)

(** ** Numbers *)

Lemma Qle_bool_false (x y : Q) : Qle_bool x y = false -> y < x.
Proof.
  intros H. apply Qnot_le_lt. intros Hle.
  apply Qle_bool_iff in Hle. congruence.
Qed.

Lemma Qle_bool_true (x y : Q) : Qle_bool x y = true -> x <= y.
Proof. apply Qle_bool_iff. Qed.

(** Case analysis on the next comparison of an if-chain. *)
Ltac split_le :=
  match goal with
  | |- context [Qle_bool ?a ?b] =>
      let H := fresh "Hle" in
      destruct (Qle_bool a b) eqn:H;
      [apply Qle_bool_true in H | apply Qle_bool_false in H]
  end.

Lemma is_str_true (v : jsval) (lit : string) : is_str v lit = true <-> v = JStr lit.
Proof.
  destruct v; simpl; split; intros H; try discriminate.
  - apply String.eqb_eq in H. now subst.
  - injection H as ->. apply String.eqb_refl.
Qed.


Lemma floor_mul_le (a b r : Q) : 0 <= r -> a <= b -> (Qfloor (a * r) <= Qfloor (b * r))%Z.
Proof.
  intros Hr Hab. apply Qfloor_resp_le. apply Qmult_le_compat_r; assumption.
Qed.

Lemma half_percent_mono (a b : Q) : a <= b -> (half_percent a <= half_percent b)%Z.
Proof.
  intros Hab. unfold half_percent.
  apply Z.max_le_compat_l, floor_mul_le; [discriminate | assumption].
Qed.

Lemma tenth_percent_mono (a b : Q) : a <= b -> (tenth_percent a <= tenth_percent b)%Z.
Proof.
  intros Hab. unfold tenth_percent.
  apply Z.max_le_compat_l, floor_mul_le; [discriminate | assumption].
Qed.

Lemma half_percent_ge (a : Q) : (50 <= half_percent a)%Z.
Proof. apply Z.le_max_l. Qed.

Lemma floor_fraction_lt (amt r : Q) : 0 < amt -> r < 1 -> inject_Z (Qfloor (amt * r)) < amt.
Proof.
  intros Hpos Hr.
  apply Qle_lt_trans with (amt * r); [apply Qfloor_le |].
  setoid_replace amt with (amt * 1) at 2 by ring.
  apply Qmult_lt_l; assumption.
Qed.

Lemma half_percent_lt (amt : Q) : 50 < amt -> inject_Z (half_percent amt) < amt.
Proof.
  intros H. unfold half_percent.
  destruct (Z.max_spec 50 (Qfloor (amt * (5 # 1000)))) as [[_ ->] | [_ ->]].
  - apply floor_fraction_lt; [lra | reflexivity].
  - exact H.
Qed.

(** ** The fee table *)

Ltac fee_cases :=
  unfold calculateFee, tier, fixed_tier, Math_max, Math_floor_mul;
  repeat match goal with
         | |- context [is_str ?m ?lit] =>
             let H := fresh "Hm" in destruct (is_str m lit) eqn:H
         end;
  repeat split_le.



Lemma calculateFee_nonneg (amt : Q) (m : jsval) : (0 <= calculateFee amt m)%Z.
Proof. fee_cases; lia. Qed.

Lemma calculateFee_monotone (m : jsval) (a b : Q) :
  a <= b -> (calculateFee a m <= calculateFee b m)%Z.
Proof.
  intros Hab.
  unfold calculateFee, Math_max, Math_floor_mul.
  destruct (is_str m "mpesa").
  { repeat split_le; try lia; try (exfalso; lra);
      try apply half_percent_ge; apply half_percent_mono; assumption. }
  destruct (is_str m "airtel").
  { repeat split_le; try lia; try (exfalso; lra);
      try apply half_percent_ge; apply half_percent_mono; assumption. }
  destruct (is_str m "bank"); [apply tenth_percent_mono; assumption | lia].
Qed.

Lemma fixed_tier_constant (m : jsval) (a b : Q) :
  tier a m = tier b m -> fixed_tier a m = true -> calculateFee a m = calculateFee b m.
Proof.
  unfold calculateFee, tier, fixed_tier.
  destruct (is_str m "mpesa").
  { repeat split_le; intros; try reflexivity; try discriminate. }
  destruct (is_str m "airtel").
  { repeat split_le; intros; try reflexivity; try discriminate. }
  destruct (is_str m "bank"); intros; [discriminate | reflexivity].
Qed.



(** C9. For every method and every amount the fee is not negative; within
    one tier of one method it does not decrease as the amount grows, and on
    a tier with a fixed fee it is constant. *)
Theorem C9_fee_nonnegative_and_monotone_within_tier (m : jsval) (a b : Q) :
  (0 <= calculateFee a m)%Z /\
  (tier a m = tier b m -> a <= b -> (calculateFee a m <= calculateFee b m)%Z) /\
  (tier a m = tier b m -> fixed_tier a m = true -> calculateFee a m = calculateFee b m).
Proof.
  split; [apply calculateFee_nonneg |].
  split; [intros _; apply calculateFee_monotone | apply fixed_tier_constant].
Qed.

Lemma C9_witness :
  (tier 12000 (JStr "mpesa") = tier 20000 (JStr "mpesa") /\ 12000 <= 20000 /\
   (calculateFee 12000 (JStr "mpesa") <= calculateFee 20000 (JStr "mpesa"))%Z) /\
  (tier 3000 (JStr "airtel") = tier 4000 (JStr "airtel") /\
   fixed_tier 3000 (JStr "airtel") = true /\
   calculateFee 3000 (JStr "airtel") = calculateFee 4000 (JStr "airtel")).
Proof.
  split.
  - split; [reflexivity |]. split; [discriminate |].
    apply (C9_fee_nonnegative_and_monotone_within_tier (JStr "mpesa") 12000 20000);
      [reflexivity | discriminate].
  - split; [reflexivity |]. split; [reflexivity |].
    apply (C9_fee_nonnegative_and_monotone_within_tier (JStr "airtel") 3000 4000);
      reflexivity.
Defined.

(** ** Phone numbers *)

Lemma startsWith_append (p s : string) : startsWith (p ++ s) p = true.
Proof.
  unfold startsWith. induction p as [| c p IH]; simpl.
  - destruct s; reflexivity.
  - destruct (ascii_dec c c); [exact IH | congruence].
Qed.

Lemma normalize_phone_shape (raw : string) :
  startsWith (intlPhone (normalize_phone raw)) "254" = true /\
  localPhone (normalize_phone raw) = "0" ++ slice 3 (intlPhone (normalize_phone raw)).
Proof.
  unfold normalize_phone.
  set (clean := filter_chars _ (filter_chars _ (trim raw))).
  set (intl0 := if startsWith clean "+" then slice 1 clean else clean).
  cbn [intlPhone localPhone].
  assert (H : startsWith
                (if startsWith intl0 "0" then "254" ++ slice 1 intl0
                 else if negb (startsWith intl0 "254") then "254" ++ intl0 else intl0)
                "254" = true).
  { destruct (startsWith intl0 "0"); [apply startsWith_append |].
    destruct (startsWith intl0 "254") eqn:H254; cbn [negb];
      [exact H254 | apply startsWith_append]. }
  rewrite H. split; reflexivity.
Qed.

Lemma filter_chars_twice (p q : ascii -> bool) (s : string) :
  filter_chars p (filter_chars q s) = filter_chars (fun c => q c && p c) s.
Proof.
  induction s as [| c s IH]; [reflexivity |]. cbn.
  destruct (q c); cbn; [destruct (p c) |]; rewrite <- IH; reflexivity.
Qed.

Lemma filter_chars_rev (p : ascii -> bool) (s acc : string) :
  filter_chars p (rev_string acc s) = rev_string (filter_chars p acc) (filter_chars p s).
Proof.
  revert acc. induction s as [| c s IH]; intros acc; [reflexivity |]. cbn.
  rewrite IH. cbn. destruct (p c); reflexivity.
Qed.

Lemma rev_string_twice (s acc acc' : string) :
  rev_string acc (rev_string acc' s) = rev_string (s ++ acc) acc'.
Proof.
  revert acc acc'. induction s as [| c s IH]; intros acc acc'; [reflexivity |]. cbn.
  rewrite IH. reflexivity.
Qed.

Lemma append_empty (s : string) : s ++ "" = s.
Proof. induction s as [| c s IH]; [reflexivity |]. cbn. now rewrite IH. Qed.

Lemma filter_trim_start (s : string) :
  filter_chars (fun c => negb (is_space c)) (trim_start s)
  = filter_chars (fun c => negb (is_space c)) s.
Proof.
  induction s as [| c s IH]; [reflexivity |]. cbn.
  destruct (is_space c) eqn:Hc; cbn; [exact IH | rewrite Hc; reflexivity].
Qed.

(** Trimming first changes nothing once all white space is stripped. *)
Lemma filter_trim (s : string) :
  filter_chars (fun c => negb (is_space c)) (trim s)
  = filter_chars (fun c => negb (is_space c)) s.
Proof.
  unfold trim, trim_end.
  rewrite filter_chars_rev, filter_trim_start, filter_chars_rev. cbn.
  rewrite rev_string_twice, append_empty. cbn.
  apply filter_trim_start.
Qed.

Lemma prefix_empty (s : string) : String.prefix "" s = true.
Proof. destruct s; reflexivity. Qed.

Lemma startsWith_char (s : string) (c : ascii) :
  startsWith s (String c "") = true <-> exists rest, s = String c rest.
Proof.
  unfold startsWith. destruct s as [| a s]; cbn.
  - split; [discriminate | intros [rest Hrest]; discriminate].
  - destruct (ascii_dec c a) as [-> | Hne].
    + rewrite prefix_empty. split; eauto.
    + split; [discriminate | intros [rest [= Ha _]]; congruence].
Qed.

Lemma drop_plus_slice (d : string) :
  (if startsWith d "+" then slice 1 d else d) = drop_plus d.
Proof.
  destruct (startsWith d "+") eqn:H.
  - apply startsWith_char in H as [rest ->]. reflexivity.
  - destruct d as [| a d]; [reflexivity |]. cbn.
    destruct (Ascii.eqb_spec a "+") as [-> | Hne].
    + exfalso. assert (Hyes : startsWith (String "+" d) "+" = true)
        by (apply startsWith_char; eauto). congruence.
    + destruct a as [[] [] [] [] [] [] [] []]; try reflexivity. congruence.
Qed.

Lemma international_steps (d : string) :
  (if startsWith d "0" then "254" ++ slice 1 d
   else if negb (startsWith d "254") then "254" ++ d else d)
  = international d.
Proof.
  destruct (startsWith d "0") eqn:H.
  - apply startsWith_char in H as [rest ->]. reflexivity.
  - assert (Hd : international d = if String.prefix "254" d then d else "254" ++ d).
    { destruct d as [| a d]; [reflexivity |]. cbn.
      destruct (Ascii.eqb_spec a "0") as [-> | Hne].
      + exfalso. assert (Hyes : startsWith (String "0" d) "0" = true)
          by (apply startsWith_char; eauto). congruence.
      + destruct a as [[] [] [] [] [] [] [] []]; try reflexivity. congruence. }
    rewrite Hd. unfold startsWith. destruct (String.prefix "254" d); reflexivity.
Qed.

Lemma normalize_phone_international (raw : string) :
  intlPhone (normalize_phone raw) = international (drop_plus (strip_separators raw)).
Proof.
  unfold normalize_phone, strip_separators. cbn [intlPhone].
  rewrite filter_chars_twice, <- filter_chars_twice, filter_trim, filter_chars_twice.
  rewrite drop_plus_slice. apply international_steps.
Qed.

(** C8. "0712345678" normalises to the international form "254712345678"
    and the local form "0712345678"; "+254712345678" and the bare
    "712345678" both normalise to the international form "254712345678".
    In general the international form is what is left after stripping
    white space and dashes, removing a leading [+], replacing a leading [0]
    by [254], and prefixing [254] when neither [0] nor [254] leads; it
    always leads with [254], and the local form is the international one
    with that prefix replaced by [0]. *)
Theorem C8_phone_normalisation :
  normalize_phone "0712345678"
    = {| intlPhone := "254712345678"; localPhone := "0712345678" |} /\
  intlPhone (normalize_phone "+254712345678") = "254712345678" /\
  intlPhone (normalize_phone "712345678") = "254712345678" /\
  (forall raw,
      intlPhone (normalize_phone raw) = international (drop_plus (strip_separators raw)) /\
      startsWith (intlPhone (normalize_phone raw)) "254" = true /\
      localPhone (normalize_phone raw) = "0" ++ slice 3 (intlPhone (normalize_phone raw))).
Proof.
  repeat (split; [reflexivity |]).
  intros raw. split; [apply normalize_phone_international | apply normalize_phone_shape].
Qed.

(** ** Reasoning about the stages of the handler *)

Lemma continues_refl (E : event -> Prop) (s : state) : continues E s s.
Proof.
  split; [reflexivity |]. exists []. rewrite app_nil_r. split; constructor.
Qed.

Lemma continues_trans (E : event -> Prop) (s1 s2 s3 : state) :
  continues E s1 s2 -> continues E s2 s3 -> continues E s1 s3.
Proof.
  intros [Hdb1 [e1 [Hl1 HE1]]] [Hdb2 [e2 [Hl2 HE2]]].
  split; [congruence |].
  exists (e1 ++ e2)%list. split.
  - rewrite Hl2, Hl1, app_assoc. reflexivity.
  - apply Forall_app; split; assumption.
Qed.

Lemma continues_record (E : event -> Prop) (e : event) (s : state) :
  E e -> continues E s (record e s).
Proof.
  intros He. split; [reflexivity |]. exists [e]. split; [reflexivity |].
  constructor; [exact He | constructor].
Qed.

Lemma inert_ret {A} (E : event -> Prop) (a : A) : inert E (ret a).
Proof.
  intros s c s' Hrun. injection Hrun as <- <-.
  split; [apply continues_refl | discriminate].
Qed.

Lemma inert_throw {A} (E : event -> Prop) (msg : string) : inert E (@throw A msg).
Proof.
  intros s c s' Hrun. injection Hrun as <- <-.
  split; [apply continues_refl | discriminate].
Qed.

Lemma inert_lift {A} (E : event -> Prop) (e : exn A) : inert E (lift e).
Proof. destruct e; [apply inert_ret | apply inert_throw]. Qed.

Lemma inert_reply {A} (E : event -> Prop) (st : Z) (fields : list (string * jsval)) :
  refusal (json_response st fields) -> inert E (@reply A st fields).
Proof.
  intros Href s c s' Hrun. injection Hrun as <- <-.
  split; [apply continues_refl |]. intros r [= <-]. exact Href.
Qed.

Lemma inert_bind {A B} (E : event -> Prop) (m : M A) (f : A -> M B) :
  inert E m -> (forall a, inert E (f a)) -> inert E (bind m f).
Proof.
  intros Hm Hf s c s' Hrun. unfold bind in Hrun.
  destruct (m s) as [[a | r | e] s1] eqn:Hms;
    destruct (Hm _ _ _ Hms) as [Hc1 Hr1].
  - destruct (Hf a _ _ _ Hrun) as [Hc2 Hr2].
    split; [eapply continues_trans; eauto | exact Hr2].
  - injection Hrun as <- <-. split; [exact Hc1 |].
    intros r0 [= <-]. apply Hr1. reflexivity.
  - injection Hrun as <- <-. split; [exact Hc1 | discriminate].
Qed.

Lemma inert_fetch (E : event -> Prop) (w : world) (call : api_call) :
  (forall answer, E (Provider call answer)) -> inert E (fetch w call).
Proof.
  intros HE s c s' Hrun. injection Hrun as <- <-.
  split; [apply continues_record, HE | discriminate].
Qed.

Lemma inert_clock (E : event -> Prop) (w : world) : inert E (clock w).
Proof.
  intros s c s' Hrun. injection Hrun as <- <-.
  split; [apply continues_refl | discriminate].
Qed.

Lemma inert_select_wallet (E : event -> Prop) (w : world) :
  (forall error, E (Database SelectWallet error)) -> inert E (select_wallet w).
Proof.
  intros HE s c s' Hrun. injection Hrun as <- <-.
  split; [apply continues_record, HE | discriminate].
Qed.

(** The fields of a reply: a field set to [undefined] is dropped, any other
    is found under its key. *)
Lemma field_skip (k k' : string) (v : jsval) (rest : list (string * jsval)) :
  String.eqb k k' = false ->
  assoc k (stringify ((k', v) :: rest)) = assoc k (stringify rest).
Proof. intros Hk. destruct v; simpl; rewrite ?Hk; reflexivity. Qed.

Lemma field_hit (k : string) (v : jsval) (rest : list (string * jsval)) :
  v <> JUndef -> assoc k (stringify ((k, v) :: rest)) = v.
Proof.
  intros Hv. destruct v; simpl; rewrite ?String.eqb_refl; try reflexivity.
  congruence.
Qed.

Ltac reply_field :=
  unfold field, json_response; cbn [body status];
  repeat rewrite field_skip by reflexivity;
  try rewrite field_hit by discriminate.

Lemma or_else_defined (v : jsval) (lit : string) : or_else v (JStr lit) <> JUndef.
Proof.
  unfold or_else. destruct v; cbn; try discriminate; destruct (_ : bool); discriminate.
Qed.

Lemma refusal_flagged (st : Z) (v : jsval) (rest : list (string * jsval)) :
  In st [400; 401; 404; 500]%Z -> v <> JUndef ->
  refusal (json_response st (("error", v) :: ("success", JBool false) :: rest)).
Proof.
  intros Hst Hv. split; [exact Hst |]. split.
  - unfold field, json_response. cbn [body]. rewrite field_hit; assumption.
  - left. reply_field. reflexivity.
Qed.

Lemma refusal_unflagged (st : Z) (v : jsval) :
  In st [400; 401; 404; 500]%Z -> v <> JUndef ->
  refusal (json_response st [("error", v)]).
Proof.
  intros Hst Hv. split; [exact Hst |]. split.
  - unfold field, json_response. cbn [body]. rewrite field_hit; assumption.
  - right. reply_field. reflexivity.
Qed.

Lemma refusal_not_succeeded (r : response) : refusal r -> ~ succeeded r.
Proof. intros (_ & _ & [H | H]) Hs; unfold succeeded in Hs; congruence. Qed.

(** The value of an [error] field is never [undefined]. *)
Ltac defined_value :=
  first [ discriminate
        | apply or_else_defined
        | match goal with
          | |- (if ?b then _ else _) <> _ =>
              destruct b; first [discriminate | apply or_else_defined]
          end ].

Ltac one_of_statuses := cbn; tauto.

(** Peel a stage apart: binds, branches, and the primitive steps. *)
Ltac inert_step :=
  match goal with
  | |- inert _ (bind _ _) => apply inert_bind; [| intros]
  | |- inert _ (ret _) => apply inert_ret
  | |- inert _ (throw _) => apply inert_throw
  | |- inert _ (lift _) => apply inert_lift
  | |- inert _ (clock _) => apply inert_clock
  | |- inert _ (reply _ _) =>
      apply inert_reply; first [ apply refusal_flagged | apply refusal_unflagged ];
      [one_of_statuses | defined_value]
  | |- inert _ (if ?b then _ else _) => destruct b
  | |- inert _ (match ?x with _ => _ end) => destruct x
  | |- inert _ (let '(_, _) := ?x in _) => destruct x
  end.

Ltac inert_auto := repeat inert_step.

Lemma bind_normal {A B} (m : M A) (f : A -> M B) (s s' : state) (b : B) :
  bind m f s = (Normal b, s') ->
  exists a s1, m s = (Normal a, s1) /\ f a s1 = (Normal b, s').
Proof.
  unfold bind. destruct (m s) as [[a | r | e] s1]; try discriminate.
  intros H. exists a, s1. split; [reflexivity | exact H].
Qed.

(** A bind runs its second half, or stops where its first half stopped. *)
Lemma bind_cases {A B} (m : M A) (f : A -> M B) (s s' : state) (c : completion B) :
  bind m f s = (c, s') ->
  (exists a s1, m s = (Normal a, s1) /\ f a s1 = (c, s')) \/
  (exists r, m s = (Return r, s') /\ c = Return r) \/
  (exists e, m s = (Throw e, s') /\ c = Throw e).
Proof.
  unfold bind. destruct (m s) as [[a | r | e] s1]; intros H.
  - left. exists a, s1. split; [reflexivity | exact H].
  - right; left. injection H as <- <-. exists r. split; reflexivity.
  - right; right. injection H as <- <-. exists e. split; reflexivity.
Qed.

Lemma lift_normal {A} (e : exn A) (s s' : state) (a : A) :
  lift e s = (Normal a, s') -> e = inl a /\ s' = s.
Proof.
  destruct e; simpl; intros H; [| discriminate].
  injection H as <- <-. split; reflexivity.
Qed.

Lemma get_truthy (v : jsval) (k : string) :
  truthy v = true -> get v k = inl (get_opt v k).
Proof. destruct v; simpl; intros H; try discriminate; reflexivity. Qed.

Lemma get_inl (v x : jsval) (k : string) : get v k = inl x -> get_opt v k = x.
Proof. destruct v; simpl; intros H; try discriminate; now injection H. Qed.

(** ** The validations *)

Lemma authenticate_ok (w : world) (s s' : state) (u : user) :
  authenticate w s = (Normal u, s') ->
  s' = s /\ getUser w = AuthResult (Some u) None.
Proof.
  unfold authenticate.
  destruct (getUser w) as [msg | [found |] [err |]]; try discriminate.
  intros H. injection H as <- <-. split; reflexivity.
Qed.

Lemma read_request_ok (req : request) (s s' : state) (a pm dd : jsval) :
  read_request req s = (Normal (a, pm, dd), s') ->
  s' = s /\
  exists b, json_body req = Some b /\ get b "amount" = inl a /\
            get b "paymentMethod" = inl pm /\ get b "destinationDetails" = inl dd.
Proof.
  unfold read_request. destruct (json_body req) as [b |]; [| discriminate].
  intros H.
  apply bind_normal in H as (a' & s1 & Ha & H). apply lift_normal in Ha as [Ha ->].
  apply bind_normal in H as (pm' & s2 & Hpm & H). apply lift_normal in Hpm as [Hpm ->].
  apply bind_normal in H as (dd' & s3 & Hdd & H). apply lift_normal in Hdd as [Hdd ->].
  injection H as <- <- <- <-.
  split; [reflexivity |]. exists b. repeat split; assumption.
Qed.

Lemma check_amount_ok (amount : jsval) (s s' : state) (q : Q) :
  check_amount amount s = (Normal q, s') -> s' = s /\ amount = JNum q /\ 0 < q.
Proof.
  unfold check_amount. destruct amount; try discriminate.
  destruct (negb (truthy (JNum q0))); [discriminate |]. cbn [orb].
  destruct (Qle_bool q0 0) eqn:Hle; [discriminate |].
  intros H. injection H as <- <-.
  repeat split. apply Qle_bool_false, Hle.
Qed.

Lemma check_destination_ok (pm dd : jsval) (s s' : state) (u : unit) :
  check_destination pm dd s = (Normal u, s') ->
  s' = s /\ truthy dd = true /\
  (is_str pm "bank" = false -> truthy (get_opt dd "phone_number") = true).
Proof.
  unfold check_destination.
  destruct (truthy dd) eqn:Hdd; [cbn [negb] | discriminate].
  rewrite !(get_truthy dd) by assumption.
  destruct (is_str pm "bank").
  - cbn. destruct (_ || _ || _); [discriminate |].
    intros H. injection H as _ <-. repeat split. discriminate.
  - cbn. destruct (truthy (get_opt dd "phone_number")); [| discriminate].
    intros H. injection H as _ <-. repeat split.
Qed.

Lemma check_wallet_ok (w : world) (amt : Q) (s s' : state) (bal : Q) :
  check_wallet w amt s = (Normal bal, s') ->
  s' = record (Database SelectWallet None) s /\
  wallet (db s) = Some bal /\ amt <= bal.
Proof.
  unfold check_wallet, bind, select_wallet.
  destruct (db_fault w (log s) SelectWallet); [discriminate |].
  destruct (wallet (db s)) as [b |]; [| discriminate]. cbn.
  unfold Qlt_bool. destruct (Qle_bool amt b) eqn:Hle; [| discriminate]. cbn.
  intros H. injection H as <- <-. repeat split.
  apply Qle_bool_true, Hle.
Qed.

Lemma check_key_ok (w : world) (s s' : state) (k : string) :
  check_key w s = (Normal k, s') -> s' = s.
Proof.
  unfold check_key. destruct (PAYSTACK_SECRET_KEY w) as [key |]; [| discriminate].
  destruct (String.eqb key ""); [discriminate |].
  intros H. now injection H.
Qed.

(** What a request that passes the validations is known to satisfy. *)
Lemma validate_ok (w : world) (req : request) (s s' : state) (c : validated) :
  validate w req s = (Normal c, s') ->
  s' = record (Database SelectWallet None) s /\
  getUser w = AuthResult (Some (c_user c)) None /\
  (exists b, json_body req = Some b /\ get b "amount" = inl (JNum (c_amount c)) /\
             get b "paymentMethod" = inl (c_method c) /\
             get b "destinationDetails" = inl (c_details c)) /\
  0 < c_amount c /\
  truthy (c_details c) = true /\
  (is_str (c_method c) "bank" = false ->
   truthy (get_opt (c_details c) "phone_number") = true) /\
  wallet (db s) = Some (c_balance c) /\
  c_amount c <= c_balance c.
Proof.
  unfold validate. intros H.
  apply bind_normal in H as (u & s1 & Hu & H). apply authenticate_ok in Hu as [-> Hu].
  apply bind_normal in H as ([[a pm] dd] & s2 & Hr & H).
  apply read_request_ok in Hr as [-> (b & Hb & Ha & Hpm & Hdd)].
  apply bind_normal in H as (amt & s3 & Hamt & H).
  apply check_amount_ok in Hamt as [-> [-> Hpos]].
  apply bind_normal in H as (u' & s4 & Hd & H).
  apply check_destination_ok in Hd as [-> [Htr Hphone]].
  apply bind_normal in H as (bal & s5 & Hw & H).
  apply check_wallet_ok in Hw as [-> [Hbal Hle]].
  apply bind_normal in H as (k & s6 & Hk & H).
  apply check_key_ok in Hk as ->.
  injection H as <- <-. cbn.
  repeat split; try assumption.
  exists b. repeat split; assumption.
Qed.

Lemma validate_inert (E : event -> Prop) (w : world) (req : request) :
  (forall error, E (Database SelectWallet error)) -> inert E (validate w req).
Proof.
  intros HE.
  unfold validate, authenticate, read_request, check_amount, check_destination,
    check_wallet, check_key.
  cbv zeta.
  repeat first [ inert_step | apply inert_select_wallet, HE ].
Qed.

(** ** The fee check and the calls to the provider *)

Lemma fee_check_inert (E : event -> Prop) (w : world) (c : validated) :
  inert E (fee_check w c).
Proof. unfold fee_check. cbv zeta. inert_auto. Qed.

Lemma list_providers_inert (E : event -> Prop) (w : world) :
  (forall answer, E (Provider ListProviders answer)) -> inert E (list_providers w).
Proof.
  intros HE. unfold list_providers.
  repeat first [ inert_step | apply inert_fetch, HE ].
Qed.

Lemma select_provider_inert (E : event -> Prop) (pm banksData : jsval) :
  inert E (select_provider pm banksData).
Proof. unfold select_provider. inert_auto. Qed.

Lemma createRecipientWithPhone_run
    (w : world) (c : validated) (provider : jsval) (phone : string) (s : state) :
  createRecipientWithPhone w c provider phone s =
  (Normal (attempt_of (paystack w (log s) (mobile_recipient_call c provider phone))),
   record (Provider (mobile_recipient_call c provider phone)
                    (paystack w (log s) (mobile_recipient_call c provider phone))) s).
Proof. reflexivity. Qed.

Lemma create_mobile_recipient_run
    (w : world) (c : validated) (provider : jsval) (ph : phones) (s : state) :
  let call1 := mobile_recipient_call c provider (intlPhone ph) in
  let answer1 := paystack w (log s) call1 in
  let s1 := record (Provider call1 answer1) s in
  let call2 := mobile_recipient_call c provider (localPhone ph) in
  let answer2 := paystack w (log s1) call2 in
  create_mobile_recipient w c provider ph s =
  (if rejected_as_invalid_account (attempt_of answer1)
   then (Normal (attempt_of answer2), record (Provider call2 answer2) s1)
   else (Normal (attempt_of answer1), s1)).
Proof.
  cbv zeta. unfold create_mobile_recipient, bind.
  rewrite createRecipientWithPhone_run.
  destruct (rejected_as_invalid_account _); reflexivity.
Qed.

Lemma recipient_refusal_refuses (r : attempt) : refusal (recipient_refusal r).
Proof. apply refusal_flagged; [one_of_statuses | defined_value]. Qed.

Lemma recipient_code_run (r : attempt) (s : state) :
  exists out, recipient_code r s = (out, s) /\
    match out with
    | Normal _ => truthy (ok r) = true
    | Return r' => truthy (ok r) = false /\ r' = recipient_refusal r
    | Throw _ => truthy (ok r) = true
    end.
Proof.
  unfold recipient_code, bind.
  destruct (truthy (ok r)); cbn [negb].
  - destruct (get (data r) "data") as [d |]; cbn; [| eexists; split; reflexivity].
    destruct (get d "recipient_code"); cbn; eexists; split; reflexivity.
  - eexists. split; [reflexivity |]. split; reflexivity.
Qed.

Lemma recipient_code_inert (E : event -> Prop) (r : attempt) : inert E (recipient_code r).
Proof.
  intros s c s' Hrun.
  destruct (recipient_code_run r s) as (out & Hout & Hshape).
  rewrite Hout in Hrun. injection Hrun as <- <-.
  split; [apply continues_refl |].
  intros r' ->. destruct Hshape as [_ ->]. apply recipient_refusal_refuses.
Qed.

Lemma create_mobile_recipient_inert
    (E : event -> Prop) (w : world) (c : validated) (provider : jsval) (ph : phones) :
  (forall n a b answer, E (Provider (CreateRecipient "mobile_money" n a b) answer)) ->
  inert E (create_mobile_recipient w c provider ph).
Proof.
  intros HC. unfold create_mobile_recipient, createRecipientWithPhone.
  repeat first [ inert_step | apply inert_fetch; intros; apply HC ].
Qed.

Lemma mobile_recipient_inert (E : event -> Prop) (w : world) (c : validated) :
  (forall answer, E (Provider ListProviders answer)) ->
  (forall n a b answer, E (Provider (CreateRecipient "mobile_money" n a b) answer)) ->
  inert E (mobile_recipient w c).
Proof.
  intros HL HC. unfold mobile_recipient. cbv zeta.
  repeat first [ inert_step
               | apply list_providers_inert, HL
               | apply select_provider_inert
               | apply create_mobile_recipient_inert, HC
               | apply recipient_code_inert ].
Qed.

Lemma bank_recipient_inert (E : event -> Prop) (w : world) (c : validated) :
  (forall n a b answer, E (Provider (CreateRecipient "nuban" n a b) answer)) ->
  inert E (bank_recipient w c).
Proof.
  intros HC. unfold bank_recipient.
  repeat first [ inert_step | apply inert_fetch; intros; apply HC ].
Qed.

Lemma resolve_recipient_inert (E : event -> Prop) (w : world) (c : validated) :
  (forall answer, E (Provider ListProviders answer)) ->
  (forall t n a b answer, E (Provider (CreateRecipient t n a b) answer)) ->
  inert E (resolve_recipient w c).
Proof.
  intros HL HC. unfold resolve_recipient.
  destruct (_ || _);
    [apply mobile_recipient_inert | apply bank_recipient_inert]; auto.
Qed.

Lemma initiate_transfer_inert (E : event -> Prop) (w : world) (net : Q) (code : jsval) :
  (forall amt rc answer, E (Provider (Transfer amt rc) answer)) ->
  inert E (initiate_transfer w net code).
Proof.
  intros HT. unfold initiate_transfer. cbv zeta.
  repeat first [ inert_step | apply inert_fetch; intros; apply HT ].
Qed.

(** A transfer the handler takes for done was answered with an [ok]
    response whose JSON carries a truthy [status]; it is the last call
    logged. *)
Lemma initiate_transfer_ok (w : world) (net : Q) (code td : jsval) (s s' : state) :
  initiate_transfer w net code s = (Normal td, s') ->
  let call := Transfer (Math_round (net * 100)) code in
  s' = record (Provider call (HttpResponse true (Some td))) s /\
  truthy (get_opt td "status") = true.
Proof.
  unfold initiate_transfer, bind, fetch.
  destruct (paystack w (log s) _) as [msg | resp_ok [d |]] eqn:Hans; try discriminate.
  destruct resp_ok; cbn [negb].
  - unfold ret at 1.
    destruct (get d "status") as [st | e] eqn:Hst; cbn; [| discriminate].
    destruct (truthy st) eqn:Htr; cbn.
    + intros H. injection H as <- <-. split; [reflexivity |].
      apply get_inl in Hst. now rewrite Hst.
    + destruct (get d "message"); cbn; [| discriminate].
      destruct (get d "code") as [cd |]; cbn; [| discriminate].
      destruct (is_str cd "insufficient_balance"); cbn; [discriminate |].
      destruct (lower_of _); cbn; discriminate.
  - cbn.
    destruct (get d "message"); cbn; [| discriminate].
    destruct (get d "code") as [cd |]; cbn; [| discriminate].
    destruct (is_str cd "insufficient_balance"); cbn; [discriminate |].
    destruct (lower_of _); cbn; discriminate.
Qed.

(** ** Finalisation *)

Lemma destination_of_run (w : world) (c : validated) (s : state) :
  truthy (c_details c) = true ->
  exists d, destination_of w c s = (Normal d, s).
Proof.
  intros Htr. unfold destination_of, bind.
  rewrite !get_truthy by assumption.
  destruct (is_str (c_method c) "bank"); eexists; reflexivity.
Qed.

(** Finalisation has two outcomes: the wallet update fails, the handler
    refuses with 500 and the database is as it was; or the update succeeds
    and the handler answers with the success payload, whatever the insert
    into the ledger comes back with. *)
Lemma finalize_cases
    (w : world) (c : validated) (fee : Z) (td : jsval) (s s' : state)
    (out : completion response) :
  truthy (c_details c) = true ->
  finalize w c fee td s = (out, s') ->
  let newBalance := c_balance c - c_amount c in
  (exists e r,
      out = Return r /\ refusal r /\ status r = 500%Z /\ db s' = db s /\
      log s' = (log s ++ [Database (UpdateWallet newBalance) (Some e)])%list)
  \/
  (exists r row err,
      out = Return r /\ status r = 200%Z /\ succeeded r /\
      field r "amount" = JNum (c_amount c) /\
      field r "fee" = JNum (inject_Z fee) /\
      field r "netAmount" = JNum (c_amount c - inject_Z fee) /\
      field r "newBalance" = JNum newBalance /\
      wallet (db s') = option_map (fun _ => newBalance) (wallet (db s)) /\
      wallet_transactions (db s') =
        match err with
        | None => (wallet_transactions (db s) ++ [row])%list
        | Some _ => wallet_transactions (db s)
        end /\
      log s' = (log s ++ [Database (UpdateWallet newBalance) None;
                          Database (InsertTransaction row) err])%list).
Proof.
  intros Htr. unfold finalize. unfold bind at 1. unfold update_wallet.
  destruct (db_fault w (log s) (UpdateWallet (c_balance c - c_amount c)))
    as [e |] eqn:Hfault.
  - intros H. injection H as <- <-. left. eexists e, _.
    split; [reflexivity |].
    split; [apply refusal_flagged; [one_of_statuses | defined_value] |].
    repeat split.
  - unfold bind at 1.
    match goal with
    | |- context [destination_of w c ?s1] =>
        destruct (destination_of_run w c s1 Htr) as [d ->]
    end.
    unfold bind, clock, insert_transaction, reply. cbn [log db].
    match goal with
    | |- context [db_fault w ?l (InsertTransaction ?row)] =>
        set (the_row := row); set (err := db_fault w l (InsertTransaction the_row))
    end.
    intros H. injection H as <- <-. right. eexists _, the_row, err.
    split; [reflexivity |].
    split; [reflexivity |].
    split; [reflexivity |].
    split; [reflexivity |].
    split; [reflexivity |].
    split; [reflexivity |].
    split; [reply_field; reflexivity |].
    split; [| split].
    + destruct err; cbn; destruct (wallet (db s)) eqn:Hw; cbn; rewrite ?Hw; reflexivity.
    + destruct err; cbn; destruct (wallet (db s)) eqn:Hw; cbn; reflexivity.
    + cbn. rewrite <- app_assoc. reflexivity.
Qed.

(** ** The handler as a whole *)

Lemma stage_stops {A B} (E : event -> Prop) (m : M A) (s0 s s' : state)
    (out : completion B) :
  inert E m -> continues E s0 s -> stopped m s s' out ->
  continues E s0 s' /\ refused out.
Proof.
  intros Hm Hc [(r & Hrun & ->) | (e & Hrun & ->)];
    destruct (Hm _ _ _ Hrun) as [Hc' Hr];
    (split; [eapply continues_trans; eauto |]); cbn; auto.
Qed.

Lemma stage_goes {A} (E : event -> Prop) (m : M A) (s0 s s' : state) (a : A) :
  inert E m -> continues E s0 s -> m s = (Normal a, s') -> continues E s0 s'.
Proof.
  intros Hm Hc Hrun. destruct (Hm _ _ _ Hrun) as [Hc' _].
  eapply continues_trans; eauto.
Qed.

(** Either the handler stops before finalisation, having refused or thrown
    with the database untouched, or all four earlier stages went through
    and the outcome is that of finalisation. *)
Lemma withdraw_cases (E : event -> Prop) (w : world) (req : request) (s s' : state)
    (out : completion response) :
  (forall error, E (Database SelectWallet error)) ->
  (forall call answer, E (Provider call answer)) ->
  withdraw w req s = (out, s') ->
  (continues E s s' /\ refused out) \/
  (exists c fee net code td s1 s2 s3 s4,
      validate w req s = (Normal c, s1) /\
      fee_check w c s1 = (Normal (fee, net), s2) /\
      resolve_recipient w c s2 = (Normal code, s3) /\
      initiate_transfer w net code s3 = (Normal td, s4) /\
      continues E s s3 /\
      finalize w c fee td s4 = (out, s')).
Proof.
  intros HS HP H. unfold withdraw in H.
  pose proof (validate_inert E w req HS) as Iv.
  pose proof (continues_refl E s) as C0.
  apply bind_cases in H as [(c & s1 & Hv & H) | Hstop];
    [| left; exact (stage_stops E _ s s s' out Iv C0 Hstop)].
  pose proof (stage_goes E _ s s s1 c Iv C0 Hv) as C1.
  pose proof (fee_check_inert E w c) as If.
  apply bind_cases in H as [([fee net] & s2 & Hf & H) | Hstop];
    [| left; exact (stage_stops E _ s s1 s' out If C1 Hstop)].
  pose proof (stage_goes E _ s s1 s2 _ If C1 Hf) as C2.
  assert (Ir : inert E (resolve_recipient w c)).
  { apply resolve_recipient_inert; intros; apply HP. }
  apply bind_cases in H as [(code & s3 & Hr & H) | Hstop];
    [| left; exact (stage_stops E _ s s2 s' out Ir C2 Hstop)].
  pose proof (stage_goes E _ s s2 s3 _ Ir C2 Hr) as C3.
  assert (It : inert E (initiate_transfer w net code)).
  { apply initiate_transfer_inert; intros; apply HP. }
  apply bind_cases in H as [(td & s4 & Ht & H) | Hstop];
    [| left; exact (stage_stops E _ s s3 s' out It C3 Hstop)].
  right. exists c, fee, net, code, td, s1, s2, s3, s4.
  repeat (split; [assumption |]). exact H.
Qed.

Lemma serve_cases (w : world) (req : request) (s s' : state) (r : response) :
  serve w req s = (r, s') ->
  (String.eqb (method req) "OPTIONS" = true /\ r = {| status := 200; body := None |} /\ s' = s)
  \/
  (String.eqb (method req) "OPTIONS" = false /\
   exists out, withdraw w req s = (out, s') /\
     match out with
     | Normal r' | Return r' => r = r'
     | Throw msg =>
         r = json_response 500 [("error", JStr "Internal server error");
                                ("details", JStr msg)]
     end).
Proof.
  unfold serve. destruct (String.eqb (method req) "OPTIONS").
  - intros H. injection H as <- <-. left. repeat split.
  - intros H. right. split; [reflexivity |].
    destruct (withdraw w req s) as [[r' | r' | msg] s1];
      injection H as <- <-; eexists; split; reflexivity.
Qed.

(** No answer but the success payload of finalisation is a success. *)
Lemma refused_not_succeeded (out : completion response) (r : response) :
  refused out ->
  match out with
  | Normal r' | Return r' => r = r'
  | Throw msg =>
      r = json_response 500 [("error", JStr "Internal server error");
                             ("details", JStr msg)]
  end ->
  ~ succeeded r.
Proof.
  destruct out as [r' | r' | msg]; cbn; intros Href Hr Hs; subst r.
  - exact Href.
  - exact (refusal_not_succeeded _ Href Hs).
  - discriminate Hs.
Qed.

(** ** C1 and C4: the wallet *)






(** ** C3 and C10: the fee check *)

Lemma fee_lt_amount_mobile (amt : Q) (m : jsval) :
  0 < amt -> m = JStr "mpesa" \/ m = JStr "airtel" ->
  inject_Z (calculateFee amt m) < amt.
Proof.
  intros Hpos [-> | ->]; unfold calculateFee, Math_max, Math_floor_mul;
    simpl is_str; cbv iota;
    repeat split_le; try (unfold inject_Z; lra);
    apply half_percent_lt; lra.
Qed.

Lemma bank_fee_small (amt : Q) : amt <= 25 -> calculateFee amt (JStr "bank") = 25%Z.
Proof.
  intros Hle. unfold calculateFee, Math_max, Math_floor_mul. simpl is_str. cbv iota.
  apply Z.max_l.
  assert (H : (Qfloor (amt * (1 # 1000)) <= Qfloor 1)%Z) by (apply Qfloor_resp_le; lra).
  change (Qfloor 1) with 1%Z in H. lia.
Qed.

Lemma bank_fee_lt_amount (amt : Q) :
  25 < amt -> inject_Z (calculateFee amt (JStr "bank")) < amt.
Proof.
  intros Hgt. unfold calculateFee, Math_max, Math_floor_mul. simpl is_str. cbv iota.
  destruct (Z.max_spec 25 (Qfloor (amt * (1 # 1000)))) as [[_ ->] | [_ ->]].
  - apply floor_fraction_lt; [lra | reflexivity].
  - exact Hgt.
Qed.

(** The fee reaches the amount only for a bank withdrawal of at most 25. *)
Lemma fee_consumes_amount (amt : Q) (m : jsval) :
  0 < amt -> netAmount amt (calculateFee amt m) <= 0 ->
  m = JStr "bank" /\ amt <= 25 /\ calculateFee amt m = 25%Z.
Proof.
  intros Hpos Hnet. unfold netAmount in Hnet.
  destruct (is_str m "mpesa") eqn:Hmpesa.
  { apply is_str_true in Hmpesa.
    pose proof (fee_lt_amount_mobile amt m Hpos (or_introl Hmpesa)). lra. }
  destruct (is_str m "airtel") eqn:Hairtel.
  { apply is_str_true in Hairtel.
    pose proof (fee_lt_amount_mobile amt m Hpos (or_intror Hairtel)). lra. }
  destruct (is_str m "bank") eqn:Hbank.
  - apply is_str_true in Hbank. subst m.
    assert (Hle : amt <= 25).
    { apply Qnot_lt_le. intros Hgt. pose proof (bank_fee_lt_amount amt Hgt). lra. }
    repeat split; [exact Hle | apply bank_fee_small, Hle].
  - exfalso. unfold calculateFee in Hnet. rewrite Hmpesa, Hairtel, Hbank in Hnet.
    unfold inject_Z in Hnet. lra.
Qed.

Lemma fee_check_run (w : world) (c : validated) (s : state) :
  let fee := calculateFee (c_amount c) (c_method c) in
  let net := netAmount (c_amount c) fee in
  (net <= 0 /\
   fee_check w c s =
   (Return (json_response 400
      [("error", JStr ("Withdrawal amount too low. Minimum amount after fees: KES "
                       ++ Number_toString (number_repr w) (inject_Z (fee + 1))));
       ("success", JBool false);
       ("code", JStr "amount_too_low");
       ("fee", JNum (inject_Z fee))]), s))
  \/
  (0 < net /\ fee_check w c s = (Normal (fee, net), s)).
Proof.
  cbv zeta. unfold fee_check.
  destruct (Qle_bool _ 0) eqn:Hle.
  - left. split; [apply Qle_bool_true, Hle | reflexivity].
  - right. split; [apply Qle_bool_false, Hle | reflexivity].
Qed.

Lemma fee_check_ok (w : world) (c : validated) (s s' : state) (fee : Z) (net : Q) :
  fee_check w c s = (Normal (fee, net), s') ->
  s' = s /\ fee = calculateFee (c_amount c) (c_method c) /\
  net = netAmount (c_amount c) fee /\ 0 < net.
Proof.
  intros H.
  destruct (fee_check_run w c s) as [[_ Hrun] | [Hpos Hrun]];
    rewrite Hrun in H; [discriminate |].
  injection H as <- <- <-. repeat split. exact Hpos.
Qed.

(** C3. A request that passes the validations has its fee and net amount
    computed; if the net amount [amount - fee] is not positive the handler
    answers 400 with code 'amount_too_low', the fee, and a message naming
    [fee + 1] as the least amount, having made no call beyond the wallet
    read (so none to the provider).  Consequently a success payload reports
    [netAmount = amount - fee], and that is positive. *)
Theorem C3_amount_too_low_before_provider (w : world) (req : request) (s : state) :
  (forall c s1,
      String.eqb (method req) "OPTIONS" = false ->
      validate w req s = (Normal c, s1) ->
      let fee := calculateFee (c_amount c) (c_method c) in
      netAmount (c_amount c) fee <= 0 ->
      exists r s',
        serve w req s = (r, s') /\
        status r = 400%Z /\
        field r "success" = JBool false /\
        field r "code" = JStr "amount_too_low" /\
        field r "fee" = JNum (inject_Z fee) /\
        field r "error" =
          JStr ("Withdrawal amount too low. Minimum amount after fees: KES "
                ++ string_of_Z (fee + 1)) /\
        db s' = db s /\
        log s' = (log s ++ [Database SelectWallet None])%list) /\
  (forall r s',
      serve w req s = (r, s') -> succeeded r ->
      exists b amount paymentMethod,
        json_body req = Some b /\
        get b "amount" = inl (JNum amount) /\
        get b "paymentMethod" = inl paymentMethod /\
        field r "fee" = JNum (inject_Z (calculateFee amount paymentMethod)) /\
        field r "netAmount" = JNum (amount - inject_Z (calculateFee amount paymentMethod)) /\
        0 < amount - inject_Z (calculateFee amount paymentMethod)).
Proof.
  split.
  - intros c s1 Hmeth Hv fee Hnet.
    pose proof (validate_ok _ _ _ _ _ Hv) as (Hs1 & _ & _ & Hpos & _).
    destruct (fee_consumes_amount _ _ Hpos Hnet) as (_ & _ & Hfee).
    destruct (fee_check_run w c s1) as [[_ Hrun] | [Hgt _]];
      [| exfalso; fold fee in Hgt; lra].
    eexists _, s1. split.
    { unfold serve, withdraw, bind. rewrite Hmeth, Hv, Hrun. reflexivity. }
    subst fee. rewrite Hfee, Hs1. repeat split.
  - intros r s' Hserve Hsucc.
    apply serve_cases in Hserve as [(_ & -> & _) | (_ & out & Hrun & Hout)];
      [discriminate Hsucc |].
    apply (withdraw_cases (fun _ => True)) in Hrun
      as [[_ Href] | (c & fee & net & code & td & s1 & s2 & s3 & s4
                      & Hv & Hf & _ & _ & _ & Hfin)]; try (intros; exact I).
    { exfalso. exact (refused_not_succeeded out r Href Hout Hsucc). }
    apply validate_ok in Hv as (_ & _ & (b & Hb & Hamount & Hpm & _) & _ & Htr & _).
    apply fee_check_ok in Hf as (_ & Hfee & Hnet & Hpos).
    apply finalize_cases in Hfin
      as [(e & r0 & -> & Hno & _)
         | (r0 & row & err & -> & _ & _ & _ & Hffee & Hfnet & _)];
      [| | exact Htr]; cbn in Hout; subst r0.
    { exfalso. exact (refusal_not_succeeded _ Hno Hsucc). }
    exists b, (c_amount c), (c_method c).
    repeat (split; [assumption |]).
    rewrite <- Hfee. repeat split; try assumption.
    rewrite Hnet in Hpos. exact Hpos.
Qed.

Lemma C3_witness :
  (exists r s',
      serve calm (bank_request 20) (holding 5000) = (r, s') /\
      status r = 400%Z /\
      field r "success" = JBool false /\
      field r "code" = JStr "amount_too_low" /\
      field r "fee" = JNum (inject_Z 25) /\
      field r "error" = JStr "Withdrawal amount too low. Minimum amount after fees: KES 26" /\
      db s' = db (holding 5000) /\
      log s' = [Database SelectWallet None]) /\
  (exists b amount paymentMethod,
      json_body (bank_request 2000) = Some b /\
      get b "amount" = inl (JNum amount) /\
      get b "paymentMethod" = inl paymentMethod /\
      field (fst (serve calm (bank_request 2000) (holding 5000))) "fee"
        = JNum (inject_Z (calculateFee amount paymentMethod)) /\
      field (fst (serve calm (bank_request 2000) (holding 5000))) "netAmount"
        = JNum (amount - inject_Z (calculateFee amount paymentMethod)) /\
      0 < amount - inject_Z (calculateFee amount paymentMethod)).
Proof.
  split.
  - refine (proj1 (C3_amount_too_low_before_provider calm (bank_request 20) (holding 5000))
              {| c_user := alice; c_amount := 20; c_method := JStr "bank";
                 c_details := JObj [("account_number", JStr "0123456789");
                                    ("bank_name", JStr "KCB");
                                    ("account_name", JStr "Alice W")];
                 c_balance := 5000; c_key := "sk_live_key" |}
              _ _ _ _); [reflexivity | reflexivity | vm_compute; discriminate].
  - apply (proj2 (C3_amount_too_low_before_provider calm (bank_request 2000) (holding 5000))
             _ (snd (serve calm (bank_request 2000) (holding 5000)))).
    + apply surjective_pairing.
    + vm_compute. reflexivity.
Defined.

(** C10. For 'mpesa' and 'airtel' the fee is below every positive amount,
    so the net amount is positive and a mobile-money request that passes
    the validations always passes the fee check; a request the check turns
    away as too low is a 'bank' request for at most 25, where the fee of 25
    is not below the amount. *)
Theorem C10_only_small_bank_amounts_are_too_low :
  (forall amt m,
      0 < amt -> m = JStr "mpesa" \/ m = JStr "airtel" ->
      inject_Z (calculateFee amt m) < amt /\ 0 < netAmount amt (calculateFee amt m)) /\
  (forall w req s c s1,
      validate w req s = (Normal c, s1) ->
      c_method c = JStr "mpesa" \/ c_method c = JStr "airtel" ->
      fee_check w c s1 =
      (Normal (calculateFee (c_amount c) (c_method c),
               netAmount (c_amount c) (calculateFee (c_amount c) (c_method c))), s1)) /\
  (forall w req s c s1 r s2,
      validate w req s = (Normal c, s1) ->
      fee_check w c s1 = (Return r, s2) ->
      c_method c = JStr "bank" /\ c_amount c <= 25) /\
  (forall amt,
      0 < amt -> amt <= 25 ->
      calculateFee amt (JStr "bank") = 25%Z /\
      netAmount amt (calculateFee amt (JStr "bank")) <= 0).
Proof.
  split; [| split; [| split]].
  - intros amt m Hpos Hm.
    pose proof (fee_lt_amount_mobile amt m Hpos Hm) as Hlt.
    split; [exact Hlt | unfold netAmount; lra].
  - intros w req s c s1 Hv Hm.
    apply validate_ok in Hv as (_ & _ & _ & Hpos & _).
    pose proof (fee_lt_amount_mobile _ _ Hpos Hm) as Hlt.
    destruct (fee_check_run w c s1) as [[Hle _] | [_ Hrun]]; [| exact Hrun].
    exfalso. unfold netAmount in Hle. lra.
  - intros w req s c s1 r s2 Hv Hf.
    apply validate_ok in Hv as (_ & _ & _ & Hpos & _).
    destruct (fee_check_run w c s1) as [[Hle _] | [_ Hrun]].
    + destruct (fee_consumes_amount _ _ Hpos Hle) as (Hm & Hamt & _). split; assumption.
    + rewrite Hrun in Hf. discriminate.
  - intros amt Hpos Hle. rewrite (bank_fee_small amt Hle).
    split; [reflexivity | unfold netAmount, inject_Z; lra].
Qed.

Lemma C10_witness :
  (inject_Z (calculateFee 40 (JStr "mpesa")) < 40 /\
   0 < netAmount 40 (calculateFee 40 (JStr "mpesa"))) /\
  fee_check calm
    {| c_user := alice; c_amount := 40; c_method := JStr "mpesa";
       c_details := JObj [("phone_number", JStr "0712345678")];
       c_balance := 100; c_key := "sk_live_key" |}
    (record (Database SelectWallet None) (holding 100))
  = (Normal (0%Z, netAmount 40 0), record (Database SelectWallet None) (holding 100)) /\
  (calculateFee 20 (JStr "bank") = 25%Z /\
   netAmount 20 (calculateFee 20 (JStr "bank")) <= 0).
Proof.
  split; [| split].
  - apply (proj1 C10_only_small_bank_amounts_are_too_low 40 (JStr "mpesa"));
      [reflexivity | left; reflexivity].
  - apply (proj1 (proj2 C10_only_small_bank_amounts_are_too_low)
             calm (mobile_request 40 "mpesa" "0712345678") (holding 100));
      [reflexivity | left; reflexivity].
  - apply (proj2 (proj2 (proj2 C10_only_small_bank_amounts_are_too_low)) 20);
      [reflexivity | discriminate].
Defined.

(** ** C7: the attempts at creating a mobile-money recipient *)

Lemma recipient_attempts_app (l1 l2 : list event) :
  recipient_attempts (l1 ++ l2) = (recipient_attempts l1 ++ recipient_attempts l2)%list.
Proof.
  induction l1 as [| e l1 IH]; [reflexivity |].
  destruct e as [[| t n a b | amt rc] answer | call err]; cbn; try exact IH.
  destruct (String.eqb t "mobile_money"); cbn; [f_equal |]; exact IH.
Qed.

Lemma no_attempts (evs : list event) :
  Forall (fun e => creates "mobile_money" e = false) evs -> recipient_attempts evs = [].
Proof.
  induction 1 as [| e evs He _ IH]; [reflexivity |].
  destruct e as [[| t n a b | amt rc] answer | call err]; cbn in *; try exact IH.
  rewrite He. exact IH.
Qed.

Lemma aside_quiet (s s' : state) :
  continues aside s s' ->
  exists evs, log s' = (log s ++ evs)%list /\ recipient_attempts evs = [] /\
              Forall (fun e => transfers e = false) evs.
Proof.
  intros [_ (evs & Hlog & Hevs)]. exists evs. split; [exact Hlog |]. split.
  - apply no_attempts. eapply Forall_impl; [| exact Hevs]. intros e [H _]; exact H.
  - eapply Forall_impl; [| exact Hevs]. intros e [_ H]; exact H.
Qed.

Lemma recipient_refusal_fields (a : attempt) :
  status (recipient_refusal a) = 400%Z /\
  field (recipient_refusal a) "error"
    = or_else (message a) (JStr "Failed to create recipient") /\
  field (recipient_refusal a) "success" = JBool false.
Proof.
  split; [reflexivity |]. split.
  - unfold recipient_refusal, field, json_response. cbn [body].
    apply field_hit, or_else_defined.
  - unfold recipient_refusal. reply_field. reflexivity.
Qed.

Lemma aside_lists (answer : fetched) : aside (Provider ListProviders answer).
Proof. split; reflexivity. Qed.

Lemma aside_select (error : option string) : aside (Database SelectWallet error).
Proof. split; reflexivity. Qed.

Lemma settles_of_run {A} (a : attempt) (out : completion A) :
  match out with
  | Normal _ => truthy (ok a) = true
  | Return r' => truthy (ok a) = false /\ r' = recipient_refusal a
  | Throw _ => truthy (ok a) = true
  end -> settles a out.
Proof. destruct out; exact (fun H => H). Qed.

Lemma mobile_recipient_attempts
    (w : world) (c : validated) (s s' : state) (out : completion jsval) :
  truthy (c_details c) = true ->
  mobile_recipient w c s = (out, s') ->
  exists evs,
    log s' = (log s ++ evs)%list /\
    Forall (fun e => transfers e = false) evs /\
    attempts_shape (phone_of w c) evs (fun a => settles a out).
Proof.
  intros Htr H. unfold mobile_recipient in H.
  pose proof (continues_refl aside s) as C0.
  assert (Quiet : forall s1, continues aside s s1 -> s1 = s' ->
            exists evs, log s' = (log s ++ evs)%list /\
              Forall (fun e => transfers e = false) evs /\
              attempts_shape (phone_of w c) evs (fun a => settles a out)).
  { intros s1 Hc <-. destruct (aside_quiet _ _ Hc) as (evs & Hlog & Hnone & Hnt).
    exists evs. repeat (split; [assumption |]). left. exact Hnone. }
  pose proof (list_providers_inert aside w aside_lists) as Il.
  apply bind_cases in H as [(banksData & s1 & Hl & H) | Hstop];
    [| apply (Quiet s'); [exact (proj1 (stage_stops _ _ _ _ _ out Il C0 Hstop)) | reflexivity]].
  pose proof (stage_goes _ _ _ _ _ _ Il C0 Hl) as C1.
  pose proof (select_provider_inert aside (c_method c) banksData) as Is.
  apply bind_cases in H as [(provider & s2 & Hp & H) | Hstop];
    [| apply (Quiet s'); [exact (proj1 (stage_stops _ _ _ _ _ out Is C1 Hstop)) | reflexivity]].
  pose proof (stage_goes _ _ _ _ _ _ Is C1 Hp) as C2.
  rewrite (get_truthy _ "phone_number" Htr) in H.
  unfold bind at 1 in H. cbn [lift ret] in H. fold (phone_of w c) in H.
  unfold bind in H. rewrite create_mobile_recipient_run in H. cbv zeta in H.
  destruct (aside_quiet _ _ C2) as (evs & Hlog & Hnone & Hnt).
  set (call1 := mobile_recipient_call c provider (intlPhone (phone_of w c))) in *.
  set (answer1 := paystack w (log s2) call1) in *.
  destruct (rejected_as_invalid_account (attempt_of answer1)) eqn:Hrej.
  - set (call2 := mobile_recipient_call c provider (localPhone (phone_of w c))) in *.
    set (answer2 := paystack w _ call2) in *.
    destruct (recipient_code_run (attempt_of answer2)
                (record (Provider call2 answer2) (record (Provider call1 answer1) s2)))
      as (out' & Hout & Hshape).
    rewrite Hout in H. injection H as <- <-.
    exists (evs ++ [Provider call1 answer1; Provider call2 answer2])%list.
    split; [cbn [record log]; rewrite Hlog, <- !app_assoc; reflexivity |].
    split; [apply Forall_app; split; [exact Hnt | repeat constructor] |].
    right; right. exists (attempt_of answer1), (attempt_of answer2).
    split; [rewrite recipient_attempts_app, Hnone; reflexivity |].
    split; [exact Hrej | apply settles_of_run, Hshape].
  - destruct (recipient_code_run (attempt_of answer1) (record (Provider call1 answer1) s2))
      as (out' & Hout & Hshape).
    rewrite Hout in H. injection H as <- <-.
    exists (evs ++ [Provider call1 answer1])%list.
    split; [cbn [record log]; rewrite Hlog, <- !app_assoc; reflexivity |].
    split; [apply Forall_app; split; [exact Hnt | repeat constructor] |].
    right; left. exists (attempt_of answer1).
    split; [rewrite recipient_attempts_app, Hnone; reflexivity |].
    split; [exact Hrej | apply settles_of_run, Hshape].
Qed.

Lemma attempts_shape_transport (ph : phones) (evs evs' : list event) (P P' : attempt -> Prop) :
  recipient_attempts evs' = recipient_attempts evs ->
  (forall a, P a -> P' a) ->
  attempts_shape ph evs P -> attempts_shape ph evs' P'.
Proof.
  intros Heq HP [Hnone | [(a1 & H1 & Hrej & Hp) | (a1 & a2 & H2 & Hrej & Hp)]].
  - left. congruence.
  - right; left. exists a1. rewrite Heq. auto.
  - right; right. exists a1, a2. rewrite Heq. auto.
Qed.

(** Nothing after the recipient is resolved creates a recipient. *)
Lemma after_recipient
    (w : world) (c : validated) (fee : Z) (net : Q) (code : jsval) (s s' : state)
    (out : completion response) :
  truthy (c_details c) = true ->
  bind (initiate_transfer w net code) (fun td => finalize w c fee td) s = (out, s') ->
  exists evs, log s' = (log s ++ evs)%list /\ recipient_attempts evs = [].
Proof.
  intros Htr H.
  set (E := fun e => creates "mobile_money" e = false).
  assert (It : inert E (initiate_transfer w net code)).
  { apply initiate_transfer_inert. intros; reflexivity. }
  assert (Quiet : forall s1, continues E s s1 ->
            exists evs, log s1 = (log s ++ evs)%list /\ recipient_attempts evs = []).
  { intros s1 [_ (evs & Hlog & Hevs)]. exists evs. split; [exact Hlog |].
    apply no_attempts, Hevs. }
  apply bind_cases in H as [(td & s1 & Ht & H) | Hstop];
    [| apply Quiet; exact (proj1 (stage_stops _ _ _ _ _ out It (continues_refl E s) Hstop))].
  destruct (Quiet s1 (stage_goes _ _ _ _ _ _ It (continues_refl E s) Ht))
    as (evs & Hlog & Hnone).
  apply finalize_cases in H
    as [(e & r0 & _ & _ & _ & _ & Hlog') | (r0 & row & err & _ & _ & _ & _ & _ & _ & _ & _ & _ & Hlog')];
    [| | exact Htr];
    eexists; (split; [rewrite Hlog', Hlog, <- app_assoc; reflexivity |]);
    rewrite recipient_attempts_app, Hnone; reflexivity.
Qed.

Lemma requested_phone_validated
    (w : world) (req : request) (s s' : state) (c : validated) :
  validate w req s = (Normal c, s') -> requested_phone w req = phone_of w c.
Proof.
  intros Hv. apply validate_ok in Hv as (_ & _ & (b & Hb & _ & _ & Hdd) & _).
  unfold requested_phone, phone_of. rewrite Hb, (get_inl _ _ _ Hdd). reflexivity.
Qed.

(** The attempts of a whole run of the handler. *)
Lemma withdraw_attempts
    (w : world) (req : request) (s s' : state) (out : completion response) :
  withdraw w req s = (out, s') ->
  exists evs,
    log s' = (log s ++ evs)%list /\
    attempts_shape (requested_phone w req) evs
      (fun a => truthy (ok a) = false ->
                out = Return (recipient_refusal a) /\
                Forall (fun e => transfers e = false) evs).
Proof.
  intros H. unfold withdraw in H.
  assert (Quiet : forall s1, continues aside s s1 -> s1 = s' ->
            exists evs, log s' = (log s ++ evs)%list /\
              attempts_shape (requested_phone w req) evs
                (fun a => truthy (ok a) = false ->
                          out = Return (recipient_refusal a) /\
                          Forall (fun e => transfers e = false) evs)).
  { intros s1 Hc <-. destruct (aside_quiet _ _ Hc) as (evs & Hlog & Hnone & _).
    exists evs. split; [exact Hlog | left; exact Hnone]. }
  pose proof (validate_inert aside w req aside_select) as Iv.
  pose proof (continues_refl aside s) as C0.
  apply bind_cases in H as [(c & s1 & Hv & H) | Hstop];
    [| apply (Quiet s'); [exact (proj1 (stage_stops _ _ _ _ _ out Iv C0 Hstop)) | reflexivity]].
  pose proof (stage_goes _ _ _ _ _ _ Iv C0 Hv) as C1.
  rewrite (requested_phone_validated _ _ _ _ _ Hv) in *.
  apply validate_ok in Hv as (_ & _ & _ & _ & Htr & _).
  pose proof (fee_check_inert aside w c) as If.
  apply bind_cases in H as [([fee net] & s2 & Hf & H) | Hstop];
    [| apply (Quiet s'); [exact (proj1 (stage_stops _ _ _ _ _ out If C1 Hstop)) | reflexivity]].
  pose proof (stage_goes _ _ _ _ _ _ If C1 Hf) as C2.
  destruct (aside_quiet _ _ C2) as (evs0 & Hlog0 & Hnone0 & Hnt0).
  unfold resolve_recipient in H.
  destruct (is_str (c_method c) "mpesa" || is_str (c_method c) "airtel").
  - apply bind_cases in H as [(code & s3 & Hr & H) | [(r & Hr & ->) | (e & Hr & ->)]];
      destruct (mobile_recipient_attempts _ _ _ _ _ Htr Hr) as (evs1 & Hlog1 & Hnt1 & Hshape).
    + destruct (after_recipient _ _ _ _ _ _ _ _ Htr H) as (evs2 & Hlog2 & Hnone2).
      exists (evs0 ++ evs1 ++ evs2)%list.
      split; [rewrite Hlog2, Hlog1, Hlog0, <- !app_assoc; reflexivity |].
      apply (attempts_shape_transport _ evs1 _ _ _) with (3 := Hshape).
      * rewrite !recipient_attempts_app, Hnone0, Hnone2, app_nil_r. reflexivity.
      * cbn [settles]. intros a Hok Hno. congruence.
    + exists (evs0 ++ evs1)%list.
      split; [rewrite Hlog1, Hlog0, <- !app_assoc; reflexivity |].
      apply (attempts_shape_transport _ evs1 _ _ _) with (3 := Hshape).
      * rewrite !recipient_attempts_app, Hnone0. reflexivity.
      * cbn [settles]. intros a [_ ->] _.
        split; [reflexivity | apply Forall_app; split; assumption].
    + exists (evs0 ++ evs1)%list.
      split; [rewrite Hlog1, Hlog0, <- !app_assoc; reflexivity |].
      apply (attempts_shape_transport _ evs1 _ _ _) with (3 := Hshape).
      * rewrite !recipient_attempts_app, Hnone0. reflexivity.
      * cbn [settles]. intros a Hok Hno. congruence.
  - set (E := fun e => creates "mobile_money" e = false).
    assert (Ib : inert E (bank_recipient w c)).
    { apply bank_recipient_inert. intros; reflexivity. }
    assert (Hbank : forall s3, continues E s2 s3 ->
              exists evs, log s3 = (log s2 ++ evs)%list /\ recipient_attempts evs = []).
    { intros s3 [_ (evs & Hlog & Hevs)]. exists evs. split; [exact Hlog |].
      apply no_attempts, Hevs. }
    apply bind_cases in H as [(code & s3 & Hr & H) | Hstop].
    + destruct (Hbank s3 (stage_goes _ _ _ _ _ _ Ib (continues_refl E s2) Hr))
        as (evs1 & Hlog1 & Hnone1).
      destruct (after_recipient _ _ _ _ _ _ _ _ Htr H) as (evs2 & Hlog2 & Hnone2).
      exists (evs0 ++ evs1 ++ evs2)%list.
      split; [rewrite Hlog2, Hlog1, Hlog0, <- !app_assoc; reflexivity |].
      left. rewrite !recipient_attempts_app, Hnone0, Hnone1, Hnone2. reflexivity.
    + destruct (Hbank s' (proj1 (stage_stops _ _ _ _ _ out Ib (continues_refl E s2) Hstop)))
        as (evs1 & Hlog1 & Hnone1).
      exists (evs0 ++ evs1)%list.
      split; [rewrite Hlog1, Hlog0, <- !app_assoc; reflexivity |].
      left. rewrite !recipient_attempts_app, Hnone0, Hnone1. reflexivity.
Qed.

Lemma rejected_as_invalid_account_iff (a : attempt) :
  rejected_as_invalid_account a = true <->
  truthy (ok a) = false /\
  exists m, message a = JStr m /\
            includes (toLowerCase m) "account number is invalid" = true.
Proof.
  unfold rejected_as_invalid_account. rewrite andb_true_iff, negb_true_iff.
  split.
  - intros [Hok Hmsg]. split; [exact Hok |].
    destruct (message a); try discriminate. eauto.
  - intros [Hok (m & -> & Hinc)]. split; assumption.
Qed.

(** C7. Of a mobile-money withdrawal the log holds no, one or two recipient
    creations.  The first carries the international form of the phone; a
    second is made exactly when the first failed with a message that
    contains, case aside, 'account number is invalid', and carries the
    local form; there is never a third.  If the attempt the handler settled
    on (the retry, or a first attempt that was not retried) failed, the
    answer is 400 with the message of that attempt, or 'Failed to create
    recipient' when it has none, and no transfer was requested. *)
Theorem C7_one_retry_with_local_phone
    (w : world) (req : request) (s s' : state) (r : response) :
  serve w req s = (r, s') ->
  exists evs,
    log s' = (log s ++ evs)%list /\
    let ph := requested_phone w req in
    let retried a :=
      truthy (ok a) = false /\
      exists m, message a = JStr m /\
                includes (toLowerCase m) "account number is invalid" = true in
    let settled a :=
      truthy (ok a) = false ->
      status r = 400%Z /\
      field r "error" = or_else (message a) (JStr "Failed to create recipient") /\
      field r "success" = JBool false /\
      Forall (fun e => transfers e = false) evs in
    recipient_attempts evs = [] \/
    (exists a1,
        recipient_attempts evs = [(JStr (intlPhone ph), a1)] /\
        ~ retried a1 /\ settled a1) \/
    (exists a1 a2,
        recipient_attempts evs = [(JStr (intlPhone ph), a1); (JStr (localPhone ph), a2)] /\
        retried a1 /\ settled a2).
Proof.
  intros Hserve.
  apply serve_cases in Hserve as [(_ & -> & ->) | (_ & out & Hrun & Hout)].
  { exists []. split; [now rewrite app_nil_r | left; reflexivity]. }
  destruct (withdraw_attempts _ _ _ _ _ Hrun) as (evs & Hlog & Hshape).
  exists evs. split; [exact Hlog |]. cbv zeta.
  assert (Hsettled : forall a,
            (truthy (ok a) = false ->
             out = Return (recipient_refusal a) /\
             Forall (fun e => transfers e = false) evs) ->
            truthy (ok a) = false ->
            status r = 400%Z /\
            field r "error" = or_else (message a) (JStr "Failed to create recipient") /\
            field r "success" = JBool false /\
            Forall (fun e => transfers e = false) evs).
  { intros a Hp Hok. destruct (Hp Hok) as [-> Hnt]. cbn in Hout. subst r.
    destruct (recipient_refusal_fields a) as (Hst & Herr & Hflag). auto. }
  destruct Hshape as [Hnone | [(a1 & H1 & Hrej & Hp) | (a1 & a2 & H2 & Hrej & Hp)]].
  - left. exact Hnone.
  - right; left. exists a1. split; [exact H1 |]. split; [| exact (Hsettled a1 Hp)].
    intros Hret. apply rejected_as_invalid_account_iff in Hret. congruence.
  - right; right. exists a1, a2. split; [exact H2 |].
    split; [apply rejected_as_invalid_account_iff, Hrej | exact (Hsettled a2 Hp)].
Qed.

(** The scenario of the specification: the provider rejects the
    international form as an invalid account number; the handler tries the
    local form once and, as that fails too, refuses with the provider's
    message. *)
Example retry_then_refuse :
  let '(r, s') := serve fussy (mobile_request 3000 "mpesa" "0712 345-678") (holding 5000) in
  map fst (recipient_attempts (log s')) = [JStr "254712345678"; JStr "0712345678"] /\
  r = {| status := 400;
         body := Some [("error", JStr "Account number is invalid");
                       ("success", JBool false)] |} /\
  db s' = db (holding 5000).
Proof. vm_compute. repeat split. Qed.

Example retry_then_succeed :
  let '(r, s') := serve local_only (mobile_request 3000 "mpesa" "+254712345678") (holding 5000) in
  map fst (recipient_attempts (log s')) = [JStr "254712345678"; JStr "0712345678"] /\
  status r = 200%Z /\ field r "newBalance" = JNum 2000 /\ wallet (db s') = Some 2000.
Proof. vm_compute. repeat split. Qed.

Example no_retry_on_other_errors :
  let w := world_of (fun _ => paystack_rejecting "Recipient blocked") (fun _ => None) in
  let '(r, s') := serve w (mobile_request 3000 "airtel" "712345678") (holding 5000) in
  map fst (recipient_attempts (log s')) = [JStr "254712345678"] /\
  r = {| status := 400;
         body := Some [("error", JStr "Recipient blocked"); ("success", JBool false)] |}.
Proof. vm_compute. repeat split. Qed.

Lemma C7_witness :
  exists evs,
    log (snd (serve fussy (mobile_request 3000 "mpesa" "0712345678") (holding 5000)))
      = (log (holding 5000) ++ evs)%list /\
    List.length (recipient_attempts evs) = 2%nat.
Proof.
  destruct (C7_one_retry_with_local_phone fussy
              (mobile_request 3000 "mpesa" "0712345678") (holding 5000)
              (snd (serve fussy (mobile_request 3000 "mpesa" "0712345678") (holding 5000)))
              (fst (serve fussy (mobile_request 3000 "mpesa" "0712345678") (holding 5000)))
              (surjective_pairing _))
    as (evs & Hlog & _).
  exists evs. split; [exact Hlog |].
  cbn [holding log app] in Hlog. rewrite <- Hlog. vm_compute. reflexivity.
Defined.

(** ** C5: a failed insert into the ledger *)

(** Whatever the insert into [wallet_transactions] comes back with, a
    handler that got as far as making it answers with the success payload:
    its result is not inspected. *)
Lemma ledger_error_is_ignored
    (w : world) (req : request) (s s' : state) (r : response)
    (pre post : list event) (row : ledger_row) (error : option string) :
  serve w req s = (r, s') ->
  log s' = (log s ++ pre ++ Database (InsertTransaction row) error :: post)%list ->
  status r = 200%Z /\ succeeded r.
Proof.
  intros Hserve Hpos.
  assert (Hin : forall evs, log s' = (log s ++ evs)%list ->
                  In (Database (InsertTransaction row) error) evs).
  { intros evs Hlog. rewrite Hlog in Hpos. apply app_inv_head in Hpos. subst evs.
    apply in_elt. }
  apply serve_cases in Hserve as [(_ & -> & ->) | (_ & out & Hrun & Hout)].
  { destruct (Hin [] (eq_sym (app_nil_r _))). }
  apply (withdraw_cases (fun e => writes e = false)) in Hrun
    as [[[_ (evs & Hlog & Hevs)] _]
       | (c & fee & net & code & td & s1 & s2 & s3 & s4
          & Hv & _ & _ & Ht & [_ (evs & Hlog & Hevs)] & Hfin)];
    try (intros; reflexivity).
  { exfalso. rewrite Forall_forall in Hevs.
    specialize (Hevs _ (Hin evs Hlog)). discriminate Hevs. }
  apply validate_ok in Hv as (_ & _ & _ & _ & Htr & _).
  apply initiate_transfer_ok in Ht as [-> _].
  apply finalize_cases in Hfin
    as [(e & r0 & -> & _ & _ & _ & Hlog')
       | (r0 & row' & err & -> & Hst & Hsucc & _)];
    [| | exact Htr]; cbn in Hout; subst r0.
  - exfalso. cbn [record log] in Hlog'. rewrite Hlog, <- !app_assoc in Hlog'.
    specialize (Hin _ Hlog'). rewrite Forall_forall in Hevs.
    apply in_app_or in Hin as [Hin | [Hin | [Hin | []]]]; try discriminate Hin.
    specialize (Hevs _ Hin). discriminate Hevs.
  - split; assumption.
Qed.

(** C5 (the code departs from it). The transfer succeeds, the wallet is
    debited, the insert into [wallet_transactions] fails: the handler
    answers 200 with the success payload, and no ledger row exists. *)
Theorem C5_ledger_failure_still_answers_success :
  let '(r, s') := serve ledger_down (mobile_request 3000 "mpesa" "0712345678") (holding 5000) in
  status r = 200%Z /\
  field r "success" = JBool true /\
  field r "newBalance" = JNum 2000 /\
  wallet (db s') = Some 2000 /\
  wallet_transactions (db s') = [] /\
  exists row,
    last (log s') (Database SelectWallet None)
      = Database (InsertTransaction row) (Some "insert into wallet_transactions failed").
Proof.
  vm_compute. repeat (split; [reflexivity |]). eexists. reflexivity.
Qed.

(** ** C6: the shape of a refusal *)

(** Every answer of the handler is the answer to a preflight request, the
    success payload, or a refusal: status 400, 401, 404 or 500, an [error]
    field, and a [success] field that is [false] when it is there. *)
Lemma serve_response_kinds (w : world) (req : request) (s s' : state) (r : response) :
  serve w req s = (r, s') ->
  r = {| status := 200; body := None |} \/
  (status r = 200%Z /\ succeeded r) \/
  refusal r.
Proof.
  intros Hserve.
  apply serve_cases in Hserve as [(_ & -> & _) | (_ & out & Hrun & Hout)];
    [left; reflexivity | right].
  assert (Hcatch : forall msg,
            refusal (json_response 500 [("error", JStr "Internal server error");
                                        ("details", JStr msg)])).
  { intros msg. split; [one_of_statuses |]. split; [discriminate | right; reflexivity]. }
  apply (withdraw_cases (fun _ => True)) in Hrun
    as [[_ Href] | (c & fee & net & code & td & s1 & s2 & s3 & s4
                    & Hv & _ & _ & _ & _ & Hfin)]; try (intros; exact I).
  - right. destruct out as [r' | r' | msg]; cbn in Href, Hout; subst r;
      [destruct Href | exact Href | apply Hcatch].
  - apply validate_ok in Hv as (_ & _ & _ & _ & Htr & _).
    apply finalize_cases in Hfin
      as [(e & r0 & -> & Href & _) | (r0 & row & err & -> & Hst & Hsucc & _)];
      [| | exact Htr]; cbn in Hout; subst r0; [right; exact Href | left; split; assumption].
Qed.

(** C6 (the code departs from it). Five refusals carry no [success] field:
    an unresolved credential, missing destination details, incomplete bank
    details, a missing phone number, and the catch-all for a thrown
    exception (here a body that is not JSON), which adds a [details] field
    instead. *)
Theorem C6_refusals_without_success_flag :
  fst (serve stranger (mobile_request 3000 "mpesa" "0712345678") (holding 5000))
    = {| status := 401; body := Some [("error", JStr "Unauthorized")] |} /\
  fst (serve calm (post [("amount", JNum 3000); ("paymentMethod", JStr "mpesa")]) (holding 5000))
    = {| status := 400; body := Some [("error", JStr "Destination details required")] |} /\
  fst (serve calm (post [("amount", JNum 3000); ("paymentMethod", JStr "bank");
                         ("destinationDetails", JObj [("account_number", JStr "0123456789")])])
         (holding 5000))
    = {| status := 400; body := Some [("error", JStr "Bank account details incomplete")] |} /\
  fst (serve calm (post [("amount", JNum 3000); ("paymentMethod", JStr "mpesa");
                         ("destinationDetails", JObj [("account_number", JStr "0123456789")])])
         (holding 5000))
    = {| status := 400;
         body := Some [("error", JStr "Phone number required for mobile money withdrawal")] |} /\
  fst (serve calm {| method := "POST"; json_body := None |} (holding 5000))
    = {| status := 500;
         body := Some [("error", JStr "Internal server error");
                       ("details", JStr "Unexpected end of JSON input")] |} /\
  field (fst (serve stranger (mobile_request 3000 "mpesa" "0712345678") (holding 5000)))
    "success" = JUndef.
Proof. vm_compute. repeat split. Qed.

(** * Further properties of the handler *)

(** ** The fee table, across tiers and methods *)

(** X1. A larger withdrawal never pays a smaller fee: the fee is monotone in
    the amount over the whole table of a method, steps between tiers
    included. *)
Theorem fee_monotone_across_tiers (m : jsval) (a b : Q) :
  a <= b -> (calculateFee a m <= calculateFee b m)%Z.
Proof.
  intros Hab.
  unfold calculateFee, Math_max, Math_floor_mul.
  destruct (is_str m "mpesa").
  { repeat split_le; try lia; try (exfalso; lra);
      try apply half_percent_ge; apply half_percent_mono; assumption. }
  destruct (is_str m "airtel").
  { repeat split_le; try lia; try (exfalso; lra);
      try apply half_percent_ge; apply half_percent_mono; assumption. }
  destruct (is_str m "bank"); [apply tenth_percent_mono; assumption | lia].
Qed.

Lemma fee_monotone_across_tiers_witness :
  (calculateFee 2500 (JStr "mpesa") <= calculateFee 12000 (JStr "mpesa"))%Z.
Proof.
  apply (fee_monotone_across_tiers (JStr "mpesa") 2500 12000). discriminate.
Defined.




(** X3. For one and the same amount, 'mpesa' never costs more than
    'airtel'. *)
Theorem mpesa_fee_at_most_airtel_fee (amt : Q) :
  (calculateFee amt (JStr "mpesa") <= calculateFee amt (JStr "airtel"))%Z.
Proof.
  unfold calculateFee, Math_max, Math_floor_mul. simpl is_str. cbv iota.
  repeat split_le; try lia; exfalso; lra.
Qed.

(** ** Phone numbers: what normalisation forgets and what it keeps *)

Lemma strip_separators_clean (s : string) : no_separators (strip_separators s) = true.
Proof.
  unfold strip_separators. induction s as [| c s IH]; [reflexivity |]. cbn.
  destruct (negb (is_space c) && negb (Ascii.eqb c "-")) eqn:Hc; [| exact IH].
  cbn. rewrite Hc. exact IH.
Qed.

Lemma strip_separators_id (s : string) :
  no_separators s = true -> strip_separators s = s.
Proof.
  unfold strip_separators. induction s as [| c s IH]; [reflexivity |]. cbn.
  intros H. apply andb_true_iff in H as [Hc Hs]. rewrite Hc, (IH Hs). reflexivity.
Qed.

Lemma no_separators_app (a b : string) :
  no_separators (a ++ b) = no_separators a && no_separators b.
Proof.
  induction a as [| c a IH]; [reflexivity |]. cbn. rewrite IH. now rewrite andb_assoc.
Qed.

Lemma no_separators_slice (n : nat) (s : string) :
  no_separators s = true -> no_separators (slice n s) = true.
Proof.
  revert s. induction n as [| n IH]; intros s H; [destruct s; exact H |].
  destruct s as [| c s]; [reflexivity |]. cbn in *.
  apply andb_true_iff in H as [_ H]. apply IH, H.
Qed.

Lemma drop_plus_clean (d : string) :
  no_separators d = true -> no_separators (drop_plus d) = true.
Proof.
  intros H. rewrite <- drop_plus_slice.
  destruct (startsWith d "+"); [apply no_separators_slice |]; exact H.
Qed.

Lemma international_clean (d : string) :
  no_separators d = true -> no_separators (international d) = true.
Proof.
  intros H. rewrite <- international_steps.
  destruct (startsWith d "0").
  - rewrite no_separators_app. apply andb_true_iff.
    split; [reflexivity | apply no_separators_slice, H].
  - destruct (negb (startsWith d "254")); [| exact H].
    rewrite no_separators_app. apply andb_true_iff. split; [reflexivity | exact H].
Qed.

Lemma prefix_split (p s : string) :
  String.prefix p s = true -> s = p ++ slice (String.length p) s.
Proof.
  revert s. induction p as [| c p IH]; intros s H; [destruct s; reflexivity |].
  destruct s as [| a s]; [discriminate |]. cbn in H.
  destruct (ascii_dec c a) as [-> | _]; [| discriminate].
  cbn. f_equal. apply IH, H.
Qed.

(** Both forms are a function of the input with its separators stripped. *)
Lemma normalize_phone_eq (raw : string) :
  normalize_phone raw =
  {| intlPhone := international (drop_plus (strip_separators raw));
     localPhone := "0" ++ slice 3 (international (drop_plus (strip_separators raw))) |}.
Proof.
  pose proof (normalize_phone_international raw) as Hi.
  destruct (normalize_phone_shape raw) as [_ Hl].
  destruct (normalize_phone raw) as [i l]. cbn in *. subst. reflexivity.
Qed.

Lemma international_leads_254 (d : string) : startsWith (international d) "254" = true.
Proof.
  rewrite <- international_steps.
  destruct (startsWith d "0"); [apply startsWith_append |].
  destruct (startsWith d "254") eqn:H; cbn [negb]; [exact H | apply startsWith_append].
Qed.

Lemma international_fixed (i : string) :
  no_separators i = true -> startsWith i "254" = true ->
  international (drop_plus (strip_separators i)) = i.
Proof.
  intros Hclean Hlead. rewrite (strip_separators_id _ Hclean).
  pose proof (prefix_split "254" i Hlead) as Hi.
  assert (Hplus : startsWith i "+" = false) by (rewrite Hi; reflexivity).
  assert (Hzero : startsWith i "0" = false) by (rewrite Hi; reflexivity).
  rewrite <- drop_plus_slice, Hplus, <- international_steps, Hzero, Hlead.
  reflexivity.
Qed.

(** X4. Normalisation is a projection: the international form and the local
    form it produces both normalise to the very same pair of forms, so
    either can be fed back without changing the number. *)
Theorem phone_forms_normalise_to_themselves (raw : string) :
  normalize_phone (intlPhone (normalize_phone raw)) = normalize_phone raw /\
  normalize_phone (localPhone (normalize_phone raw)) = normalize_phone raw.
Proof.
  rewrite (normalize_phone_eq raw). cbn [intlPhone localPhone].
  set (i := international (drop_plus (strip_separators raw))).
  assert (Hclean : no_separators i = true).
  { apply international_clean, drop_plus_clean, strip_separators_clean. }
  assert (Hlead : startsWith i "254" = true) by apply international_leads_254.
  split.
  - rewrite normalize_phone_eq, (international_fixed i Hclean Hlead). reflexivity.
  - rewrite normalize_phone_eq.
    assert (Hrest : no_separators (slice 3 i) = true) by (apply no_separators_slice, Hclean).
    assert (Hl : international (drop_plus (strip_separators ("0" ++ slice 3 i))) = i).
    { rewrite strip_separators_id by (cbn; exact Hrest). cbn.
      symmetry. exact (prefix_split "254" i Hlead). }
    rewrite Hl. reflexivity.
Qed.

(** X5. Two inputs that differ only in white space and dashes are the same
    phone number to the handler. *)
Theorem phone_separators_do_not_matter (a b : string) :
  strip_separators a = strip_separators b -> normalize_phone a = normalize_phone b.
Proof.
  intros H. rewrite (normalize_phone_eq a), (normalize_phone_eq b), H. reflexivity.
Qed.

Lemma phone_separators_do_not_matter_witness :
  normalize_phone " 0712 345-678" = normalize_phone "0712-345-678 ".
Proof.
  apply (phone_separators_do_not_matter " 0712 345-678" "0712-345-678 "). reflexivity.
Defined.

(** ** The validations, exactly *)

Lemma positive_truthy (q : Q) : 0 < q -> negb (truthy (JNum q)) || Qle_bool q 0 = false.
Proof.
  intros Hpos. cbn.
  destruct (Qeq_bool q 0) eqn:Heq.
  - apply Qeq_bool_eq in Heq. lra.
  - cbn. destruct (Qle_bool q 0) eqn:Hle; [| reflexivity].
    apply Qle_bool_true in Hle. lra.
Qed.

Lemma check_destination_bank_ok (pm dd : jsval) (s s' : state) (u : unit) :
  check_destination pm dd s = (Normal u, s') ->
  is_str pm "bank" = true ->
  truthy (get_opt dd "account_number") && truthy (get_opt dd "bank_name")
  && truthy (get_opt dd "account_name") = true.
Proof.
  unfold check_destination.
  destruct (truthy dd) eqn:Hdd; [cbn [negb] | discriminate].
  rewrite !(get_truthy dd) by assumption.
  intros H Hbank. rewrite Hbank in H. cbn in H.
  destruct (truthy (get_opt dd "account_number")),
           (truthy (get_opt dd "bank_name")),
           (truthy (get_opt dd "account_name")); cbn in *; try discriminate; reflexivity.
Qed.

Lemma check_wallet_no_fault (w : world) (amt : Q) (s s' : state) (bal : Q) :
  check_wallet w amt s = (Normal bal, s') -> db_fault w (log s) SelectWallet = None.
Proof.
  unfold check_wallet, bind, select_wallet.
  destruct (db_fault w (log s) SelectWallet); [discriminate | reflexivity].
Qed.

Lemma check_key_value (w : world) (s s' : state) (k : string) :
  check_key w s = (Normal k, s') -> PAYSTACK_SECRET_KEY w = Some k /\ k <> "".
Proof.
  unfold check_key. destruct (PAYSTACK_SECRET_KEY w) as [key |]; [| discriminate].
  destruct (String.eqb_spec key ""); [discriminate |].
  intros H. injection H as <- _. split; [reflexivity | assumption].
Qed.

Lemma bind_run {A B} (m : M A) (f : A -> M B) (s s1 : state) (a : A) :
  m s = (Normal a, s1) -> bind m f s = f a s1.
Proof. intros H. unfold bind. rewrite H. reflexivity. Qed.

Lemma authenticate_run (w : world) (s : state) (u : user) :
  getUser w = AuthResult (Some u) None -> authenticate w s = (Normal u, s).
Proof. intros H. unfold authenticate. rewrite H. reflexivity. Qed.

Lemma read_request_run (req : request) (s : state) (b a pm dd : jsval) :
  json_body req = Some b ->
  get b "amount" = inl a -> get b "paymentMethod" = inl pm ->
  get b "destinationDetails" = inl dd ->
  read_request req s = (Normal (a, pm, dd), s).
Proof.
  intros Hb Ha Hpm Hdd. unfold read_request, bind. rewrite Hb, Ha, Hpm, Hdd. reflexivity.
Qed.

Lemma check_amount_run (q : Q) (s : state) :
  0 < q -> check_amount (JNum q) s = (Normal q, s).
Proof. intros Hpos. unfold check_amount. rewrite (positive_truthy _ Hpos). reflexivity. Qed.

Lemma check_destination_run (pm dd : jsval) (s : state) :
  truthy dd = true ->
  (if is_str pm "bank"
   then truthy (get_opt dd "account_number") && truthy (get_opt dd "bank_name")
        && truthy (get_opt dd "account_name") = true
   else truthy (get_opt dd "phone_number") = true) ->
  check_destination pm dd s = (Normal tt, s).
Proof.
  intros Htr Hfields. unfold check_destination, bind. rewrite Htr. cbn [negb].
  rewrite !(get_truthy _ _ Htr). cbn [lift ret].
  destruct (is_str pm "bank").
  - apply andb_true_iff in Hfields as [Hfields H3].
    apply andb_true_iff in Hfields as [H1 H2]. rewrite H1, H2, H3. reflexivity.
  - rewrite Hfields. reflexivity.
Qed.

Lemma check_wallet_run (w : world) (amt bal : Q) (s : state) :
  db_fault w (log s) SelectWallet = None -> wallet (db s) = Some bal -> amt <= bal ->
  check_wallet w amt s = (Normal bal, record (Database SelectWallet None) s).
Proof.
  intros Hfault Hbal Hle. unfold check_wallet, bind, select_wallet.
  rewrite Hfault, Hbal. cbn [snd].
  unfold Qlt_bool. rewrite (proj2 (Qle_bool_iff _ _) Hle). reflexivity.
Qed.

Lemma check_key_run (w : world) (k : string) (s : state) :
  PAYSTACK_SECRET_KEY w = Some k -> k <> "" -> check_key w s = (Normal k, s).
Proof.
  intros Hkey Hne. unfold check_key. rewrite Hkey.
  destruct (String.eqb_spec k ""); [contradiction | reflexivity].
Qed.

Lemma validate_acceptable
    (w : world) (req : request) (s s' : state) (c : validated) :
  validate w req s = (Normal c, s') ->
  acceptable w req s c /\ s' = record (Database SelectWallet None) s.
Proof.
  intros Hv. pose proof (validate_ok _ _ _ _ _ Hv)
    as (Hs' & Hu & Hbody & Hpos & Htr & Hphone & Hbal & Hle).
  split; [| exact Hs'].
  unfold validate in Hv.
  apply bind_normal in Hv as (u & s1 & Hau & Hv). apply authenticate_ok in Hau as [-> _].
  apply bind_normal in Hv as ([[a pm] dd] & s2 & Hr & Hv).
  apply read_request_ok in Hr as [-> _].
  apply bind_normal in Hv as (amt & s3 & Hamt & Hv).
  apply check_amount_ok in Hamt as [-> _].
  apply bind_normal in Hv as (u' & s4 & Hd & Hv).
  pose proof (check_destination_bank_ok _ _ _ _ _ Hd) as Hbank.
  apply check_destination_ok in Hd as [-> _].
  apply bind_normal in Hv as (bal & s5 & Hw & Hv).
  pose proof (check_wallet_no_fault _ _ _ _ _ Hw) as Hfault.
  apply check_wallet_ok in Hw as [-> _].
  apply bind_normal in Hv as (k & s6 & Hk & Hv).
  pose proof (check_key_value _ _ _ _ Hk) as [Hkey Hne].
  injection Hv as <- _. unfold acceptable. cbn in *.
  repeat (split; [assumption |]).
  split; [destruct (is_str pm "bank"); cbv iota; auto |].
  repeat (split; [assumption |]). exact Hne.
Qed.

Lemma acceptable_validate
    (w : world) (req : request) (s : state) (c : validated) :
  acceptable w req s c ->
  validate w req s = (Normal c, record (Database SelectWallet None) s).
Proof.
  intros (Hu & (b & Hb & Ha & Hpm & Hdd) & Hpos & Htr & Hfields & Hfault & Hbal & Hle
           & Hkey & Hne).
  unfold validate.
  rewrite (bind_run _ _ _ _ _ (authenticate_run _ _ _ Hu)).
  rewrite (bind_run _ _ _ _ _ (read_request_run _ _ _ _ _ _ Hb Ha Hpm Hdd)).
  rewrite (bind_run _ _ _ _ _ (check_amount_run _ _ Hpos)).
  rewrite (bind_run _ _ _ _ _ (check_destination_run _ _ _ Htr Hfields)).
  rewrite (bind_run _ _ _ _ _ (check_wallet_run _ _ _ _ Hfault Hbal Hle)).
  rewrite (bind_run _ _ _ _ _ (check_key_run _ _ _ Hkey Hne)).
  destruct c; reflexivity.
Qed.

(** X6. The validations pass exactly for an authenticated request whose
    body is an object with a positive numeric [amount] and truthy
    destination details (all three bank fields for 'bank', a phone number
    for anything else), when the wallet row is read without error, holds at
    least the amount, and the provider key is set and not empty; the wallet
    read is then the only call logged. *)
Theorem validations_pass_exactly
    (w : world) (req : request) (s s' : state) (c : validated) :
  validate w req s = (Normal c, s') <->
  acceptable w req s c /\ s' = record (Database SelectWallet None) s.
Proof.
  split; [apply validate_acceptable |].
  intros [Hacc ->]. apply acceptable_validate, Hacc.
Qed.

Lemma validations_pass_exactly_witness :
  validate calm (bank_request 2000) (holding 5000)
  = (Normal {| c_user := alice; c_amount := 2000; c_method := JStr "bank";
               c_details := JObj [("account_number", JStr "0123456789");
                                  ("bank_name", JStr "KCB");
                                  ("account_name", JStr "Alice W")];
               c_balance := 5000; c_key := "sk_live_key" |},
     record (Database SelectWallet None) (holding 5000)).
Proof.
  apply (proj2 (validations_pass_exactly calm (bank_request 2000) (holding 5000) _ _)).
  split; [| reflexivity].
  unfold acceptable. cbn.
  split; [reflexivity |].
  split; [eexists; repeat split |].
  split; [reflexivity |].
  repeat (split; [reflexivity |]).
  split; [discriminate |].
  split; [reflexivity | discriminate].
Defined.

(** ** Refusals, in the order of the checks *)

Lemma bind_stop {A B} (m : M A) (f : A -> M B) (s s1 : state) (r : response) :
  m s = (Return r, s1) -> bind m f s = (Return r, s1).
Proof. intros H. unfold bind. rewrite H. reflexivity. Qed.

Lemma serve_returns (w : world) (req : request) (s s' : state) (r : response) :
  String.eqb (method req) "OPTIONS" = false ->
  withdraw w req s = (Return r, s') -> serve w req s = (r, s').
Proof. intros Hm H. unfold serve. rewrite Hm, H. reflexivity. Qed.

Lemma get_other_key (b x : jsval) (k k' : string) :
  get b k = inl x -> get b k' = inl (get_opt b k').
Proof. destruct b; cbn; intros H; try discriminate; reflexivity. Qed.

(** X7. An amount that is not a number above zero (a numeric string, zero,
    a negative number, [null], a missing field) is refused with 400
    'invalid_amount' as soon as the caller is authenticated: nothing is
    read from the database and nothing is sent to the provider. *)
Theorem amount_must_be_a_positive_number
    (w : world) (req : request) (s : state) (u : user) (b a : jsval) :
  String.eqb (method req) "OPTIONS" = false ->
  getUser w = AuthResult (Some u) None ->
  json_body req = Some b ->
  get b "amount" = inl a ->
  (forall q, a = JNum q -> q <= 0) ->
  exists r,
    serve w req s = (r, s) /\
    status r = 400%Z /\
    field r "code" = JStr "invalid_amount" /\
    field r "success" = JBool false /\
    field r "error" = JStr "Please enter a valid withdrawal amount".
Proof.
  intros Hm Hu Hb Ha Hbad.
  eexists. split.
  - apply serve_returns; [exact Hm |]. unfold withdraw, validate.
    apply bind_stop.
    rewrite (bind_run _ _ _ _ _ (authenticate_run _ _ _ Hu)).
    rewrite (bind_run _ _ _ _ _
               (read_request_run _ _ _ _ _ _ Hb Ha
                  (get_other_key _ _ _ _ Ha) (get_other_key _ _ _ _ Ha))).
    apply bind_stop. unfold check_amount, reply, respond.
    destruct a; try reflexivity.
    specialize (Hbad q eq_refl). apply Qle_bool_iff in Hbad.
    rewrite Hbad, orb_true_r. reflexivity.
  - repeat split.
Qed.

Lemma amount_must_be_a_positive_number_witness :
  exists r,
    serve calm (post [("amount", JStr "100"); ("paymentMethod", JStr "mpesa");
                      ("destinationDetails", JObj [("phone_number", JStr "0712345678")])])
      (holding 5000) = (r, holding 5000) /\
    status r = 400%Z /\
    field r "code" = JStr "invalid_amount" /\
    field r "success" = JBool false /\
    field r "error" = JStr "Please enter a valid withdrawal amount".
Proof.
  apply (amount_must_be_a_positive_number calm _ (holding 5000) alice
           (JObj [("amount", JStr "100"); ("paymentMethod", JStr "mpesa");
                  ("destinationDetails", JObj [("phone_number", JStr "0712345678")])])
           (JStr "100")); try reflexivity.
  intros q Hq. discriminate Hq.
Defined.

Lemma reach_destination_check
    (w : world) (req : request) (s : state) (u : user) (b : jsval) (amt : Q) (pm dd : jsval)
    (k : validated -> M response) :
  getUser w = AuthResult (Some u) None ->
  json_body req = Some b ->
  get b "amount" = inl (JNum amt) ->
  get b "paymentMethod" = inl pm ->
  get b "destinationDetails" = inl dd ->
  0 < amt ->
  bind (validate w req) k s =
  bind (check_destination pm dd)
    (fun _ => bind (check_wallet w amt)
      (fun balance => bind (check_key w)
        (fun key => k {| c_user := u; c_amount := amt; c_method := pm;
                         c_details := dd; c_balance := balance; c_key := key |}))) s.
Proof.
  intros Hu Hb Ha Hpm Hdd Hpos.
  unfold validate.
  unfold bind at 1. unfold bind at 1.
  rewrite (authenticate_run _ _ _ Hu).
  unfold bind at 1.
  rewrite (read_request_run _ _ _ _ _ _ Hb Ha Hpm Hdd).
  unfold bind at 1.
  rewrite (check_amount_run _ _ Hpos).
  unfold bind.
  destruct (check_destination pm dd s) as [[[] | r | e] s1]; try reflexivity.
  destruct (check_wallet w amt s1) as [[bal | r | e] s2]; try reflexivity.
  destruct (check_key w s2) as [[key | r | e] s3]; reflexivity.
Qed.

(** X8. Destination details are checked before the wallet is looked at: a
    request without them, a 'bank' request lacking any of account number,
    bank name and account name, and a request by any other method
    (known or not) lacking a phone number are each refused with 400 and
    their own message, with nothing logged. *)
Theorem destination_details_are_required
    (w : world) (req : request) (s : state) (amt : Q) (pm dd : jsval) :
  well_formed w req amt pm dd ->
  ~ destination_given pm dd ->
  exists msg,
    serve w req s = ({| status := 400; body := Some [("error", JStr msg)] |}, s) /\
    msg = (if negb (truthy dd) then "Destination details required"
           else if is_str pm "bank" then "Bank account details incomplete"
           else "Phone number required for mobile money withdrawal").
Proof.
  intros (Hm & (u & Hu) & (b & Hb & Ha & Hpm & Hdd) & Hpos) Hmissing.
  eexists. split; [| reflexivity].
  apply serve_returns; [exact Hm |]. unfold withdraw.
  rewrite (reach_destination_check _ _ _ _ _ _ _ _ _ Hu Hb Ha Hpm Hdd Hpos).
  apply bind_stop. unfold check_destination, bind.
  destruct (truthy dd) eqn:Htr; cbn [negb]; [| reflexivity].
  rewrite !(get_truthy _ _ Htr). cbn [lift ret].
  unfold destination_given in Hmissing. rewrite Htr in Hmissing.
  destruct (is_str pm "bank").
  - destruct (truthy (get_opt dd "account_number")),
             (truthy (get_opt dd "bank_name")),
             (truthy (get_opt dd "account_name")); cbn; try reflexivity.
    exfalso. apply Hmissing. split; reflexivity.
  - destruct (truthy (get_opt dd "phone_number")); cbn; [| reflexivity].
    exfalso. apply Hmissing. split; reflexivity.
Qed.

Lemma destination_details_are_required_witness :
  exists msg,
    serve calm (post [("amount", JNum 3000); ("paymentMethod", JStr "paypal");
                      ("destinationDetails", JObj [("account_number", JStr "0123456789")])])
      (holding 5000)
    = ({| status := 400; body := Some [("error", JStr msg)] |}, holding 5000) /\
    msg = "Phone number required for mobile money withdrawal".
Proof.
  apply (destination_details_are_required calm
           (post [("amount", JNum 3000); ("paymentMethod", JStr "paypal");
                  ("destinationDetails", JObj [("account_number", JStr "0123456789")])])
           (holding 5000) 3000 (JStr "paypal")
           (JObj [("account_number", JStr "0123456789")])).
  - split; [reflexivity |]. split; [exists alice; reflexivity |].
    split; [eexists; repeat split | reflexivity].
  - intros [_ H]. discriminate H.
Defined.

(** X9. The wallet decides next, whatever the provider key and the provider
    are like: a wallet row that cannot be read (an error, or no row) is
    answered 404 'Wallet not found', a balance below the amount 400
    'Insufficient balance'; in both cases the read of the wallet is the only
    call made and the database is left as it was. *)
Theorem wallet_must_cover_the_amount
    (w : world) (req : request) (s : state) (amt : Q) (pm dd : jsval) :
  well_formed w req amt pm dd ->
  destination_given pm dd ->
  (forall bal,
      db_fault w (log s) SelectWallet = None -> wallet (db s) = Some bal -> bal < amt ->
      serve w req s =
      ({| status := 400;
          body := Some [("error", JStr "Insufficient balance"); ("success", JBool false)] |},
       record (Database SelectWallet None) s)) /\
  (db_fault w (log s) SelectWallet <> None \/ wallet (db s) = None ->
   exists e,
     serve w req s =
     ({| status := 404;
         body := Some [("error", JStr "Wallet not found"); ("success", JBool false)] |},
      record (Database SelectWallet (Some e)) s)).
Proof.
  intros (Hm & (u & Hu) & (b & Hb & Ha & Hpm & Hdd) & Hpos) [Htr Hfields].
  assert (Hreach : forall r s',
            check_wallet w amt s = (Return r, s') -> serve w req s = (r, s')).
  { intros r s' Hw. apply serve_returns; [exact Hm |]. unfold withdraw.
    rewrite (reach_destination_check _ _ _ _ _ _ _ _ _ Hu Hb Ha Hpm Hdd Hpos).
    rewrite (bind_run _ _ _ _ _ (check_destination_run _ _ _ Htr Hfields)).
    apply bind_stop, Hw. }
  split.
  - intros bal Hfault Hbal Hlt. apply Hreach.
    unfold check_wallet, bind, select_wallet. rewrite Hfault, Hbal. cbn [snd].
    unfold Qlt_bool. destruct (Qle_bool amt bal) eqn:Hle; [| reflexivity].
    apply Qle_bool_true in Hle. lra.
  - intros Hbroken.
    destruct (db_fault w (log s) SelectWallet) as [e |] eqn:Hfault.
    + exists e. apply Hreach. unfold check_wallet, bind, select_wallet.
      rewrite Hfault. reflexivity.
    + destruct Hbroken as [Hne | Hnone]; [contradiction |].
      eexists. apply Hreach. unfold check_wallet, bind, select_wallet.
      rewrite Hfault, Hnone. reflexivity.
Qed.

(** The scenario of the specification: a balance of 100 and a request for
    150. *)
Lemma wallet_must_cover_the_amount_witness :
  serve calm (mobile_request 150 "mpesa" "0712345678") (holding 100) =
  ({| status := 400;
      body := Some [("error", JStr "Insufficient balance"); ("success", JBool false)] |},
   record (Database SelectWallet None) (holding 100)).
Proof.
  refine (proj1 (wallet_must_cover_the_amount calm
                   (mobile_request 150 "mpesa" "0712345678") (holding 100)
                   150 (JStr "mpesa") (JObj [("phone_number", JStr "0712345678")]) _ _)
            100 _ _ _).
  - split; [reflexivity |]. split; [exists alice; reflexivity |].
    split; [eexists; repeat split | reflexivity].
  - split; reflexivity.
  - reflexivity.
  - reflexivity.
  - reflexivity.
Defined.

(** ** What reaches the provider *)

Lemma feeless_stage_quiet {A} (m : M A) (s s' : state) (out : completion A) :
  inert (fun e => transfers e = false /\ writes e = false
                  /\ match e with Provider _ _ => False | _ => True end) m ->
  m s = (out, s') ->
  forall evs, log s' = (log s ++ evs)%list ->
  forall call answer, ~ In (Provider call answer) evs.
Proof.
  intros Hm Hrun evs Hlog call answer Hin.
  destruct (Hm _ _ _ Hrun) as [[_ (evs' & Hlog' & Hevs)] _].
  rewrite Hlog' in Hlog. apply app_inv_head in Hlog. subst evs'.
  rewrite Forall_forall in Hevs. destruct (Hevs _ Hin) as (_ & _ & []).
Qed.

(** X10. The provider hears of a request only after every validation has
    passed and the fee left a positive net amount: if any call to the
    provider is logged, the caller was authenticated, the amount positive,
    the destination details given, the wallet read and sufficient, the
    provider key set, and [amount - fee] is above zero. *)
Theorem provider_called_only_for_valid_requests
    (w : world) (req : request) (s s' : state) (r : response)
    (evs : list event) (call : api_call) (answer : fetched) :
  serve w req s = (r, s') ->
  log s' = (log s ++ evs)%list ->
  In (Provider call answer) evs ->
  exists c,
    acceptable w req s c /\
    0 < netAmount (c_amount c) (calculateFee (c_amount c) (c_method c)).
Proof.
  intros Hserve Hlog Hin.
  set (E := fun e => transfers e = false /\ writes e = false
                     /\ match e with Provider _ _ => False | _ => True end).
  apply serve_cases in Hserve as [(_ & _ & ->) | (_ & out & Hrun & _)].
  { rewrite <- (app_nil_r (log s)) in Hlog at 1. apply app_inv_head in Hlog.
    subst evs. destruct Hin. }
  unfold withdraw in Hrun.
  assert (Iv : inert E (validate w req)).
  { apply validate_inert. intros; repeat split. }
  destruct (validate w req s) as [[c | r0 | e] s1] eqn:Hv.
  2, 3: exfalso; unfold bind in Hrun; rewrite Hv in Hrun; injection Hrun as _ <-;
        exact (feeless_stage_quiet _ _ _ _ Iv Hv evs Hlog call answer Hin).
  exists c. split; [apply (validate_acceptable _ _ _ _ _ Hv) |].
  unfold bind at 1 in Hrun. rewrite Hv in Hrun.
  destruct (fee_check_run w c s1) as [[_ Hf] | [Hpos _]]; [| exact Hpos].
  exfalso. unfold bind in Hrun. rewrite Hf in Hrun. injection Hrun as _ <-.
  destruct (Iv _ _ _ Hv) as [[_ (evs' & Hlog' & Hevs)] _].
  rewrite Hlog' in Hlog. apply app_inv_head in Hlog. subst evs'.
  rewrite Forall_forall in Hevs. destruct (Hevs _ Hin) as (_ & _ & []).
Qed.

Lemma provider_called_only_for_valid_requests_witness :
  exists c,
    acceptable calm (bank_request 2000) (holding 5000) c /\
    0 < netAmount (c_amount c) (calculateFee (c_amount c) (c_method c)).
Proof.
  refine (provider_called_only_for_valid_requests calm (bank_request 2000) (holding 5000)
            _ _ _ (Transfer 197500 (JStr "RCP_1"))
            (provider_ok [("reference", JStr "WD-REF-1")])
            (surjective_pairing _) _ _).
  - vm_compute. reflexivity.
  - vm_compute. right; right; left. reflexivity.
Defined.

(** ** Every run of the handler, call by call *)

Lemma silent {A} (m : M A) (s s' : state) (out : completion A) :
  inert (fun _ => False) m -> m s = (out, s') -> s' = s.
Proof.
  intros Hm Hrun. destruct (Hm _ _ _ Hrun) as [[Hdb (evs & Hlog & Hevs)] _].
  destruct evs as [| e evs]; [| inversion Hevs as [| ? ? [] _]].
  rewrite app_nil_r in Hlog. destruct s, s'. cbn in *. congruence.
Qed.

(** The transfer stage logs exactly one call, whatever comes of it. *)
Lemma initiate_transfer_log
    (w : world) (net : Q) (rc : jsval) (s s' : state) (out : completion jsval) :
  initiate_transfer w net rc s = (out, s') ->
  exists answer,
    s' = record (Provider (Transfer (Math_round (net * 100)) rc) answer) s.
Proof.
  unfold initiate_transfer. unfold bind at 1. unfold fetch.
  set (answer := paystack w (log s) _). intros H. exists answer.
  eapply silent; [| exact H].
  destruct answer as [msg | resp_ok [td |]]; inert_auto.
Qed.

Lemma finalize_outcomes
    (w : world) (c : validated) (fee : Z) (td : jsval) (s s' : state)
    (out : completion response) :
  truthy (c_details c) = true ->
  finalize w c fee td s = (out, s') ->
  let newBalance := c_balance c - c_amount c in
  (exists e r,
      out = Return r /\ refusal r /\ db s' = db s /\
      log s' = (log s ++ [Database (UpdateWallet newBalance) (Some e)])%list)
  \/
  (exists r row err,
      out = Return r /\ succeeded r /\ records_withdrawal row c fee /\
      wallet (db s') = option_map (fun _ => newBalance) (wallet (db s)) /\
      wallet_transactions (db s') =
        match err with
        | None => (wallet_transactions (db s) ++ [row])%list
        | Some _ => wallet_transactions (db s)
        end /\
      log s' = (log s ++ [Database (UpdateWallet newBalance) None;
                          Database (InsertTransaction row) err])%list).
Proof.
  intros Htr. unfold finalize. unfold bind at 1. unfold update_wallet.
  destruct (db_fault w (log s) (UpdateWallet (c_balance c - c_amount c)))
    as [e |] eqn:Hfault.
  - intros H. injection H as <- <-. left. eexists e, _.
    split; [reflexivity |].
    split; [apply refusal_flagged; [one_of_statuses | defined_value] |].
    split; reflexivity.
  - unfold bind at 1.
    match goal with
    | |- context [destination_of w c ?s1] =>
        destruct (destination_of_run w c s1 Htr) as [d ->]
    end.
    unfold bind, clock, insert_transaction, reply, respond. cbn [log db].
    match goal with
    | |- context [db_fault w ?l (InsertTransaction ?row)] =>
        set (the_row := row); set (err := db_fault w l (InsertTransaction the_row))
    end.
    intros H. injection H as <- <-. right. eexists _, the_row, err.
    split; [reflexivity |].
    split; [reflexivity |].
    split; [repeat split |].
    split; [| split].
    + destruct err; cbn; destruct (wallet (db s)) eqn:Hw; cbn; rewrite ?Hw; reflexivity.
    + destruct err; cbn; destruct (wallet (db s)) eqn:Hw; cbn; reflexivity.
    + cbn. rewrite <- app_assoc. reflexivity.
Qed.

(** Every run, in full: it stops before the transfer, at the transfer, at
    the wallet update, or goes through. *)
Lemma withdraw_runs
    (w : world) (req : request) (s s' : state) (out : completion response) :
  withdraw w req s = (out, s') ->
  (refused out /\ continues harmless s s')
  \/
  exists c rc pre answer,
    acceptable w req s c /\
    0 < netAmount (c_amount c) (calculateFee (c_amount c) (c_method c)) /\
    Forall harmless pre /\
    let fee := calculateFee (c_amount c) (c_method c) in
    let transfer :=
      Provider (Transfer (Math_round (netAmount (c_amount c) fee * 100)) rc) answer in
    let newBalance := c_balance c - c_amount c in
    ((refused out /\ db s' = db s /\ log s' = (log s ++ pre ++ [transfer])%list)
     \/
     (exists e,
         refused out /\ db s' = db s /\
         log s' = (log s ++ pre ++ [transfer;
                                    Database (UpdateWallet newBalance) (Some e)])%list)
     \/
     (exists r row err,
         out = Return r /\ succeeded r /\ records_withdrawal row c fee /\
         wallet (db s') = Some newBalance /\
         wallet_transactions (db s') =
           match err with
           | None => (wallet_transactions (db s) ++ [row])%list
           | Some _ => wallet_transactions (db s)
           end /\
         log s' = (log s ++ pre ++ [transfer;
                                    Database (UpdateWallet newBalance) None;
                                    Database (InsertTransaction row) err])%list)).
Proof.
  intros H. unfold withdraw in H.
  assert (Hsel : forall error, harmless (Database SelectWallet error)) by (intros; split; reflexivity).
  assert (Hlist : forall answer, harmless (Provider ListProviders answer))
    by (intros; split; reflexivity).
  assert (Hcre : forall t n a b answer, harmless (Provider (CreateRecipient t n a b) answer))
    by (intros; split; reflexivity).
  pose proof (validate_inert harmless w req Hsel) as Iv.
  pose proof (continues_refl harmless s) as C0.
  apply bind_cases in H as [(c & s1 & Hv & H) | Hstop];
    [| left; destruct (stage_stops _ _ _ _ _ out Iv C0 Hstop); split; assumption].
  pose proof (stage_goes _ _ _ _ _ _ Iv C0 Hv) as C1.
  pose proof (fee_check_inert harmless w c) as If.
  apply bind_cases in H as [([fee net] & s2 & Hf & H) | Hstop];
    [| left; destruct (stage_stops _ _ _ _ _ out If C1 Hstop); split; assumption].
  pose proof (stage_goes _ _ _ _ _ _ If C1 Hf) as C2.
  pose proof (resolve_recipient_inert harmless w c Hlist Hcre) as Ir.
  apply bind_cases in H as [(rc & s3 & Hr & H) | Hstop];
    [| left; destruct (stage_stops _ _ _ _ _ out Ir C2 Hstop); split; assumption].
  pose proof (stage_goes _ _ _ _ _ _ Ir C2 Hr) as [Hdb3 (pre & Hlog3 & Hpre)].
  apply fee_check_ok in Hf as (_ & -> & -> & Hpos).
  pose proof (validate_acceptable _ _ _ _ _ Hv) as [Hacc _].
  pose proof Hacc as (_ & _ & _ & Htr & _ & _ & Hbal & _).
  right.
  assert (It : inert (fun _ => True)
                 (initiate_transfer w
                    (netAmount (c_amount c) (calculateFee (c_amount c) (c_method c))) rc)).
  { apply initiate_transfer_inert. intros; exact I. }
  apply bind_cases in H as [(td & s4 & Ht & H) | Hstop].
  - destruct (initiate_transfer_log _ _ _ _ _ _ Ht) as [answer ->].
    exists c, rc, pre, answer.
    repeat (split; [assumption |]). cbv zeta.
    apply finalize_outcomes in H
      as [(e & r & -> & Href & Hdb & Hlog) | (r & row & err & -> & Hsucc & Hrow & Hw & Hl & Hlog)];
      [| | exact Htr].
    + right; left. exists e. split; [exact Href |].
      split; [rewrite Hdb; exact Hdb3 |].
      rewrite Hlog. cbn [record log]. rewrite Hlog3, <- !app_assoc. reflexivity.
    + right; right. exists r, row, err.
      split; [reflexivity |].
      repeat (split; [assumption |]).
      split; [rewrite Hw; cbn [record db]; rewrite Hdb3, Hbal; reflexivity |].
      split; [rewrite Hl; cbn [record db]; rewrite Hdb3; reflexivity |].
      rewrite Hlog. cbn [record log]. rewrite Hlog3, <- !app_assoc. reflexivity.
  - assert (Hs' : exists answer,
              s' = record (Provider (Transfer (Math_round
                     (netAmount (c_amount c) (calculateFee (c_amount c) (c_method c)) * 100))
                     rc) answer) s3).
    { destruct Hstop as [(r & Hrun & _) | (e & Hrun & _)];
        exact (initiate_transfer_log _ _ _ _ _ _ Hrun). }
    destruct Hs' as [answer ->].
    exists c, rc, pre, answer.
    repeat (split; [assumption |]). cbv zeta.
    left. split; [exact (proj2 (stage_stops _ _ _ _ _ out It (continues_refl _ s3) Hstop)) |].
    split; [exact Hdb3 |].
    cbn [record log]. rewrite Hlog3, <- !app_assoc. reflexivity.
Qed.











(** ** The wallet and the ledger across a request *)

(** What a run leaves in the database: nothing new; a debit whose ledger
    row was lost; or a debit and its row. *)
Lemma serve_database
    (w : world) (req : request) (s s' : state) (r : response) :
  serve w req s = (r, s') ->
  (db s' = db s /\ ~ succeeded r) \/
  exists c,
    acceptable w req s c /\ succeeded r /\
    wallet (db s') = Some (c_balance c - c_amount c) /\
    (wallet_transactions (db s') = wallet_transactions (db s) \/
     exists row,
       wallet_transactions (db s') = (wallet_transactions (db s) ++ [row])%list /\
       records_withdrawal row c (calculateFee (c_amount c) (c_method c))).
Proof.
  intros Hserve.
  apply serve_cases in Hserve as [(_ & -> & ->) | (_ & out & Hrun & Hout)].
  { left. split; [reflexivity | discriminate]. }
  apply withdraw_runs in Hrun
    as [[Href [Hdb _]]
       | (c & rc & pre & answer & Hacc & Hpos & Hpre & Hcases)].
  { left. split; [exact Hdb | exact (refused_not_succeeded _ _ Href Hout)]. }
  cbv zeta in Hcases.
  destruct Hcases as [(Href & Hdb & _) | [(e & Href & Hdb & _) | (r0 & row & err & -> & Hsucc & Hrow & Hw & Hl & _)]].
  - left. split; [exact Hdb | exact (refused_not_succeeded _ _ Href Hout)].
  - left. split; [exact Hdb | exact (refused_not_succeeded _ _ Href Hout)].
  - right. cbn in Hout. subst r0. exists c.
    repeat (split; [assumption |]).
    destruct err; [left; exact Hl | right; exists row; split; assumption].
Qed.


(** X14. A request never overdraws the wallet and never credits it: the
    balance is left as it was, or lowered to a value that is not
    negative. *)
Theorem wallet_is_never_overdrawn
    (w : world) (req : request) (s s' : state) (r : response) :
  serve w req s = (r, s') ->
  wallet (db s') = wallet (db s) \/
  exists before after,
    wallet (db s) = Some before /\ wallet (db s') = Some after /\
    0 <= after /\ after < before.
Proof.
  intros Hserve.
  destruct (serve_database _ _ _ _ _ Hserve) as [[Hdb _] | (c & Hacc & _ & Hw & _)].
  - left. now rewrite Hdb.
  - right. exists (c_balance c), (c_balance c - c_amount c).
    destruct Hacc as (_ & _ & Hpos & _ & _ & _ & Hbal & Hle & _).
    repeat split; try assumption; lra.
Qed.





Lemma wallet_is_never_overdrawn_witness :
  wallet (db (snd (serve calm (bank_request 2000) (holding 5000))))
    = wallet (db (holding 5000)) \/
  exists before after,
    wallet (db (holding 5000)) = Some before /\
    wallet (db (snd (serve calm (bank_request 2000) (holding 5000)))) = Some after /\
    0 <= after /\ after < before.
Proof.
  apply (wallet_is_never_overdrawn calm (bank_request 2000) (holding 5000)
           _ (fst (serve calm (bank_request 2000) (holding 5000)))).
  symmetry. apply surjective_pairing.
Defined.

(** ** The mobile-money channel that is used *)

Lemma matches_provider_truthy (pm p : jsval) :
  matches_provider pm p = inl true -> truthy p = true.
Proof.
  destruct p; cbn; try discriminate; try reflexivity;
    destruct (is_str pm "mpesa"); try discriminate;
    destruct (is_str pm "airtel"); discriminate.
Qed.

Lemma find_provider_first (pm : jsval) (banks : list jsval) (p : jsval) :
  find_provider pm banks = inl p ->
  (p = JUndef /\ Forall (fun b => matches_provider pm b = inl false) banks) \/
  (exists before after,
      banks = (before ++ p :: after)%list /\
      matches_provider pm p = inl true /\
      Forall (fun b => matches_provider pm b = inl false) before).
Proof.
  induction banks as [| b banks IH]; cbn.
  - intros [= <-]. left. split; [reflexivity | constructor].
  - destruct (matches_provider pm b) as [[] | e] eqn:Hb; cbn; [| | discriminate].
    + intros [= <-]. right. exists [], banks. repeat split; [exact Hb | constructor].
    + intros H. destruct (IH H) as [[-> Hall] | (before & after & -> & Hp & Hall)].
      * left. split; [reflexivity | constructor; assumption].
      * right. exists (b :: before), after. repeat split; [exact Hp | constructor; assumption].
Qed.

Lemma select_provider_outcome
    (pm banksData : jsval) (s s' : state) (out : completion jsval) :
  select_provider pm banksData s = (out, s') ->
  s' = s /\
  match out with
  | Normal p =>
      exists before after,
        get banksData "data" = inl (JArr (before ++ p :: after)) /\
        matches_provider pm p = inl true /\
        Forall (fun b => matches_provider pm b = inl false) before
  | Return r =>
      exists banks name,
        get banksData "data" = inl (JArr banks) /\
        Forall (fun b => matches_provider pm b = inl false) banks /\
        upper_of pm = inl name /\
        r = json_response 400 [("error", JStr (name ++ " provider not available"));
                               ("success", JBool false)]
  | Throw _ => True
  end.
Proof.
  intros H. split.
  { exact (silent _ _ _ _ (select_provider_inert _ pm banksData) H). }
  unfold select_provider, bind in H.
  destruct (get banksData "data") as [data |] eqn:Hdata; cbn in H;
    [| injection H as <- _; exact I].
  destruct data as [| | | | | banks |]; cbn in H; try (injection H as <- _; exact I).
  destruct (find_provider pm banks) as [p |] eqn:Hfind; cbn in H;
    [| injection H as <- _; exact I].
  destruct (find_provider_first _ _ _ Hfind) as [[-> Hall] | (before & after & -> & Hp & Hall)].
  - cbn in H. destruct (upper_of pm) as [name |] eqn:Hname; cbn in H;
      injection H as <- _; [| exact I].
    exists banks, name. repeat split; assumption.
  - rewrite (matches_provider_truthy _ _ Hp) in H. cbn in H. injection H as <- _.
    exists before, after. repeat split; assumption.
Qed.



(** ** A transfer the provider turns down *)

(** X17. However a transfer fails, the refusal does not pass on a provider
    message about the platform's own balance: the [error] text never
    contains 'balance is not enough' (in any letter case), the status is 400
    or 500, and the only call logged is the transfer itself. *)
Theorem transfer_refusal_hides_provider_balance
    (w : world) (net : Q) (rc : jsval) (s s' : state) (r : response) :
  initiate_transfer w net rc s = (Return r, s') ->
  (forall m, field r "error" = JStr m ->
             includes (toLowerCase m) "balance is not enough" = false) /\
  (status r = 400%Z \/ status r = 500%Z) /\
  field r "success" = JBool false /\
  exists answer,
    s' = record (Provider (Transfer (Math_round (net * 100)) rc) answer) s.
Proof.
  intros H.
  pose proof (initiate_transfer_log _ _ _ _ _ _ H) as Hlog.
  assert (Hshape :
    (forall m, field r "error" = JStr m ->
               includes (toLowerCase m) "balance is not enough" = false) /\
    (status r = 400%Z \/ status r = 500%Z) /\
    field r "success" = JBool false); [| tauto].
  unfold initiate_transfer in H. unfold bind at 1 in H. unfold fetch in H.
  destruct (paystack w (log s) _) as [msg | resp_ok [td |]].
  - cbv beta iota zeta in H. unfold reply, respond in H. injection H as Hr Hs; subst r.
    split; [| split; [right |]; reflexivity].
    intros m [= <-]. reflexivity.
  - assert (Hfail :
      forall s0,
        bind (lift (get td "message")) (fun msg =>
          let errorMessage := or_else msg (JStr "Transfer failed") in
          bind (lift (get td "code")) (fun code =>
            bind (if is_str code "insufficient_balance" then ret true
                  else bind (lift (lower_of errorMessage))
                         (fun m => ret (includes m "balance is not enough")))
              (fun exhausted : bool =>
                 @reply jsval 400
                   [("error",
                     if exhausted
                     then JStr "Service temporarily unavailable. Please try again later or contact support."
                     else errorMessage);
                    ("success", JBool false); ("code", code)]))) s0 = (Return r, s') ->
        (forall m, field r "error" = JStr m ->
                   includes (toLowerCase m) "balance is not enough" = false) /\
        (status r = 400%Z \/ status r = 500%Z) /\
        field r "success" = JBool false).
    { intros s0. unfold bind.
      destruct (get td "message") as [msg |]; cbn; [| discriminate].
      destruct (get td "code") as [code |]; cbn; [| discriminate].
      destruct (is_str code "insufficient_balance"); cbn.
      - intros H0. injection H0 as Hr Hs0; subst r.
        split; [| split; [left; reflexivity | reply_field; reflexivity]].
        reply_field. intros m [= <-]. reflexivity.
      - destruct (or_else msg (JStr "Transfer failed")) as [| | | | em | |] eqn:Hem;
          cbn; try discriminate.
        destruct (includes (toLowerCase em) "balance is not enough") eqn:Hinc; cbn.
        + intros H0. injection H0 as Hr Hs0; subst r.
          split; [| split; [left; reflexivity | reply_field; reflexivity]].
          reply_field. intros m [= <-]. reflexivity.
        + intros H0. injection H0 as Hr Hs0; subst r.
          split; [| split; [left; reflexivity | reply_field; reflexivity]].
          reply_field. intros m [= <-]. exact Hinc. }
    destruct resp_ok; cbn [negb] in H; unfold bind at 1 in H.
    + unfold bind at 1 in H.
      destruct (get td "status") as [st |]; cbn [lift ret throw] in H; [| discriminate].
      destruct (truthy st); cbn [negb] in H; [discriminate |].
      exact (Hfail _ H).
    + cbn [ret] in H. exact (Hfail _ H).
  - cbv beta iota zeta in H. unfold reply, respond in H. injection H as Hr Hs; subst r.
    split; [| split; [right |]; reflexivity].
    intros m [= <-]. reflexivity.
Qed.

Lemma transfer_refusal_hides_provider_balance_witness :
  field (json_response 400
           [("error", JStr "Service temporarily unavailable. Please try again later or contact support.");
            ("success", JBool false); ("code", JUndef)]) "success" = JBool false.
Proof.
  refine (proj1 (proj2 (proj2
    (transfer_refusal_hides_provider_balance
       (world_of (fun _ _ => provider_error "Your balance is not enough to fulfil this request")
                 (fun _ => None))
       2975 (JStr "RCP_1") (holding 5000) _ _ _)))).
  reflexivity.
Defined.

(** ** Which recipient is created *)

Lemma inert_logs {A} (E : event -> Prop) (m : M A) : inert E m -> logs E m.
Proof.
  intros Hm s out s' Hrun. destruct (Hm _ _ _ Hrun) as [[_ Hlog] _]. exact Hlog.
Qed.

Lemma logs_bind {A B} (E : event -> Prop) (m : M A) (f : A -> M B) :
  logs E m -> (forall a, logs E (f a)) -> logs E (bind m f).
Proof.
  intros Hm Hf s out s' Hrun. unfold bind in Hrun.
  destruct (m s) as [[a | r | e] s1] eqn:Hms;
    destruct (Hm _ _ _ Hms) as (evs1 & Hlog1 & HE1).
  - destruct (Hf a _ _ _ Hrun) as (evs2 & Hlog2 & HE2).
    exists (evs1 ++ evs2)%list. split; [rewrite Hlog2, Hlog1, app_assoc; reflexivity |].
    apply Forall_app; split; assumption.
  - injection Hrun as _ <-. exists evs1. split; assumption.
  - injection Hrun as _ <-. exists evs1. split; assumption.
Qed.

Lemma finalize_logs (E : event -> Prop) (w : world) (c : validated) (fee : Z) (td : jsval) :
  (forall call error, E (Database call error)) -> logs E (finalize w c fee td).
Proof.
  intros HE. unfold finalize, destination_of.
  apply logs_bind.
  { intros s out s' H. unfold update_wallet in H. injection H as _ <-. eexists.
    split; [reflexivity | constructor; [apply HE | constructor]]. }
  intros [e |]; [apply inert_logs; inert_auto |].
  apply logs_bind; [apply inert_logs; inert_auto |]. intros d.
  apply logs_bind; [apply inert_logs; inert_auto |]. intros t.
  apply logs_bind.
  { intros s out s' H. unfold insert_transaction in H. injection H as _ <-. eexists.
    split; [reflexivity | constructor; [apply HE | constructor]]. }
  intros _ s out s' H. injection H as _ <-. exists []. split; [now rewrite app_nil_r | constructor].
Qed.

Lemma after_validation_logs (E : event -> Prop) (w : world) (c : validated) :
  (forall call error, E (Database call error)) ->
  (forall amt rc answer, E (Provider (Transfer amt rc) answer)) ->
  inert E (resolve_recipient w c) ->
  logs E (bind (fee_check w c) (fun charged =>
            let '(fee, net) := charged in
            bind (resolve_recipient w c) (fun rc =>
              bind (initiate_transfer w net rc) (fun td => finalize w c fee td)))).
Proof.
  intros HD HT Hr.
  apply logs_bind; [apply inert_logs, fee_check_inert |]. intros [fee net].
  apply logs_bind; [apply inert_logs, Hr |]. intros rc.
  apply logs_bind; [apply inert_logs, initiate_transfer_inert, HT |]. intros td.
  apply finalize_logs, HD.
Qed.

Lemma requested_method_validated
    (w : world) (req : request) (s s' : state) (c : validated) :
  validate w req s = (Normal c, s') -> requested_method req = c_method c.
Proof.
  intros Hv. apply validate_ok in Hv as (_ & _ & (b & Hb & _ & Hpm & _) & _).
  unfold requested_method. rewrite Hb. exact (get_inl _ _ _ Hpm).
Qed.

(** X18. The payment method alone decides which recipient is created.  For
    'mpesa' and 'airtel' no bank ('nuban') recipient is ever created; for
    every other method, 'bank' or not, the mobile-money channel list is
    never fetched and no mobile-money recipient is created: an unknown
    method is handled as a bank withdrawal. *)
Theorem recipient_kind_follows_method
    (w : world) (req : request) (s s' : state) (r : response) (evs : list event) :
  serve w req s = (r, s') ->
  log s' = (log s ++ evs)%list ->
  if is_str (requested_method req) "mpesa" || is_str (requested_method req) "airtel"
  then Forall (fun e => creates "nuban" e = false) evs
  else Forall (fun e => lists e = false /\ creates "mobile_money" e = false) evs.
Proof.
  intros Hserve Hlog.
  assert (Hall : forall E : event -> Prop,
            (forall call error, E (Database call error)) ->
            (forall amt rc answer, E (Provider (Transfer amt rc) answer)) ->
            (forall c, requested_method req = c_method c -> inert E (resolve_recipient w c)) ->
            Forall E evs).
  { intros E HD HT Hr.
    apply serve_cases in Hserve as [(_ & _ & ->) | (_ & out & Hrun & _)].
    { rewrite <- (app_nil_r (log s)) in Hlog at 1. apply app_inv_head in Hlog.
      subst evs. constructor. }
    unfold withdraw in Hrun.
    assert (Hlogs : exists evs', log s' = (log s ++ evs')%list /\ Forall E evs').
    { destruct (validate w req s) as [[c | r0 | e] s1] eqn:Hv.
      - destruct (validate_inert E w req (HD SelectWallet) _ _ _ Hv)
          as [[_ (evs1 & Hlog1 & HE1)] _].
        unfold bind at 1 in Hrun. rewrite Hv in Hrun.
        destruct (after_validation_logs E w c HD HT
                    (Hr c (requested_method_validated _ _ _ _ _ Hv)) _ _ _ Hrun)
          as (evs2 & Hlog2 & HE2).
        exists (evs1 ++ evs2)%list.
        split; [rewrite Hlog2, Hlog1, app_assoc; reflexivity |].
        apply Forall_app; split; assumption.
      - unfold bind in Hrun. rewrite Hv in Hrun. injection Hrun as _ <-.
        destruct (validate_inert E w req (HD SelectWallet) _ _ _ Hv) as [[_ H] _]. exact H.
      - unfold bind in Hrun. rewrite Hv in Hrun. injection Hrun as _ <-.
        destruct (validate_inert E w req (HD SelectWallet) _ _ _ Hv) as [[_ H] _]. exact H. }
    destruct Hlogs as (evs' & Hlog' & HE). rewrite Hlog' in Hlog.
    apply app_inv_head in Hlog. now subst. }
  destruct (is_str (requested_method req) "mpesa" || is_str (requested_method req) "airtel")
    eqn:Hmobile.
  - apply Hall; try (intros; reflexivity).
    intros c Hc. unfold resolve_recipient. rewrite <- Hc, Hmobile.
    apply mobile_recipient_inert; intros; reflexivity.
  - apply Hall; try (intros; split; reflexivity).
    intros c Hc. unfold resolve_recipient. rewrite <- Hc, Hmobile.
    apply bank_recipient_inert; intros; split; reflexivity.
Qed.

Lemma recipient_kind_follows_method_witness :
  Forall (fun e => lists e = false /\ creates "mobile_money" e = false)
    (log (snd (serve calm
                 (post [("amount", JNum 3000); ("paymentMethod", JStr "paypal");
                        ("destinationDetails", JObj [("phone_number", JStr "0712345678")])])
                 (holding 5000)))).
Proof.
  apply (recipient_kind_follows_method calm
           (post [("amount", JNum 3000); ("paymentMethod", JStr "paypal");
                  ("destinationDetails", JObj [("phone_number", JStr "0712345678")])])
           (holding 5000) _ _ _ (surjective_pairing _)).
  reflexivity.
Defined.

(** The unknown method of the witness does end in a bank recipient and a
    debit. *)
Example unknown_method_is_paid_as_bank :
  let '(r, s') :=
    serve calm
      (post [("amount", JNum 3000); ("paymentMethod", JStr "paypal");
             ("destinationDetails", JObj [("phone_number", JStr "0712345678")])])
      (holding 5000) in
  status r = 200%Z /\ field r "fee" = JNum 0 /\ wallet (db s') = Some 2000 /\
  exists answer, nth_error (log s') 1
                 = Some (Provider (CreateRecipient "nuban" JUndef JUndef JUndef) answer).
Proof. vm_compute. repeat split. eexists. reflexivity. Qed.

(** ** From the channel list to the recipient *)

Lemma list_providers_ok (w : world) (s s' : state) (banksData : jsval) :
  list_providers w s = (Normal banksData, s') ->
  s' = record (Provider ListProviders (HttpResponse true (Some banksData))) s /\
  truthy (get_opt banksData "status") = true.
Proof.
  unfold list_providers. unfold bind at 1. unfold fetch.
  destruct (paystack w (log s) ListProviders) as [msg | resp_ok [d |]] eqn:Hans;
    try discriminate.
  unfold bind. destruct resp_ok; cbn [negb].
  - unfold ret at 1.
    destruct (get d "status") as [st | e] eqn:Hst; cbn; [| discriminate].
    destruct (truthy st) eqn:Htr; cbn.
    + intros H. injection H as <- <-. split; [reflexivity |].
      apply get_inl in Hst. now rewrite Hst.
    + destruct (get d "message"); cbn; discriminate.
  - cbn. destruct (get d "message"); cbn; discriminate.
Qed.

(** X19. A mobile-money recipient is only ever created for a channel of the
    list fetched in the same request: the list was answered [ok] with a
    truthy [status], and the [bank_code] sent is the [code] of the first
    entry of that list matching the payment method; the recipient's name is
    the user's e-mail address, or 'User'. *)
Theorem mobile_recipient_uses_the_listed_channel
    (w : world) (c : validated) (s s' : state) (out : completion jsval)
    (evs : list event) (name account code : jsval) (answer : fetched) :
  mobile_recipient w c s = (out, s') ->
  log s' = (log s ++ evs)%list ->
  In (Provider (CreateRecipient "mobile_money" name account code) answer) evs ->
  exists banksData before p after,
    hd_error evs = Some (Provider ListProviders (HttpResponse true (Some banksData))) /\
    truthy (get_opt banksData "status") = true /\
    get banksData "data" = inl (JArr (before ++ p :: after)) /\
    matches_provider (c_method c) p = inl true /\
    Forall (fun b => matches_provider (c_method c) b = inl false) before /\
    code = get_opt p "code" /\
    name = or_else (user_email (c_user c)) (JStr "User").
Proof.
  intros H Hlog Hin.
  set (E := fun e => creates "mobile_money" e = false).
  assert (Hquiet : forall s1, continues E s s1 -> s1 = s' -> False).
  { intros s1 [_ (evs' & Hlog' & Hevs)] <-. rewrite Hlog' in Hlog.
    apply app_inv_head in Hlog. subst evs'. rewrite Forall_forall in Hevs.
    specialize (Hevs _ Hin). discriminate Hevs. }
  unfold mobile_recipient in H.
  assert (Il : inert E (list_providers w)) by (apply list_providers_inert; reflexivity).
  apply bind_cases in H as [(banksData & s1 & Hl & H) | Hstop];
    [| exfalso; apply (Hquiet s');
       [exact (proj1 (stage_stops _ _ _ _ _ out Il (continues_refl E s) Hstop)) | reflexivity]].
  apply list_providers_ok in Hl as [-> Hstatus].
  apply bind_cases in H as [(p & s2 & Hp & H) | Hstop].
  2: { exfalso. apply (Hquiet s'); [| reflexivity].
       assert (C1 : continues E s (record (Provider ListProviders
                                     (HttpResponse true (Some banksData))) s))
         by (apply continues_record; reflexivity).
       exact (proj1 (stage_stops _ _ _ _ _ out
                       (select_provider_inert E (c_method c) banksData) C1 Hstop)). }
  apply select_provider_outcome in Hp as [-> (before & after & Hdata & Hmatch & Hbefore)].
  exists banksData, before, p, after.
  assert (Hevs : exists rest,
            evs = (Provider ListProviders (HttpResponse true (Some banksData)) :: rest)%list /\
            forall e, In e rest ->
              exists phone ans, e = Provider (mobile_recipient_call c p phone) ans).
  { apply bind_cases in H as [(pn & s3 & Hpn & H) | Hstop].
    2: { exists []. split; [| intros e []].
         assert (Hs' : s' = record (Provider ListProviders
                               (HttpResponse true (Some banksData))) s).
         { destruct Hstop as [(r & Hrun & _) | (e & Hrun & _)];
             exact (silent _ _ _ _ (inert_lift (fun _ => False) _) Hrun). }
         rewrite Hs' in Hlog. cbn [record log] in Hlog.
         apply app_inv_head in Hlog. now subst. }
    apply lift_normal in Hpn as [_ ->]. cbv zeta in H.
    unfold bind in H. rewrite create_mobile_recipient_run in H. cbv zeta in H.
    destruct (rejected_as_invalid_account _).
    - match type of H with
      | recipient_code ?a ?s0 = _ =>
          destruct (recipient_code_run a s0) as (out' & Hout & _)
      end.
      rewrite Hout in H. injection H as _ <-.
      cbn [record log] in Hlog. rewrite <- !app_assoc in Hlog.
      apply app_inv_head in Hlog. subst evs.
      eexists. split; [reflexivity |].
      intros e [<- | [<- | []]]; eexists _, _; reflexivity.
    - match type of H with
      | recipient_code ?a ?s0 = _ =>
          destruct (recipient_code_run a s0) as (out' & Hout & _)
      end.
      rewrite Hout in H. injection H as _ <-.
      cbn [record log] in Hlog. rewrite <- !app_assoc in Hlog.
      apply app_inv_head in Hlog. subst evs.
      eexists. split; [reflexivity |].
      intros e [<- | []]; eexists _, _; reflexivity. }
  destruct Hevs as (rest & -> & Hrest).
  split; [reflexivity |].
  repeat (split; [assumption |]).
  destruct Hin as [Hin | Hin]; [discriminate Hin |].
  destruct (Hrest _ Hin) as (phone & ans & Heq).
  unfold mobile_recipient_call in Heq. injection Heq as -> _ -> _.
  split; reflexivity.
Qed.

Lemma mobile_recipient_uses_the_listed_channel_witness :
  exists banksData before p after,
    hd_error
      (log (snd (mobile_recipient calm
                   {| c_user := alice; c_amount := 3000; c_method := JStr "mpesa";
                      c_details := JObj [("phone_number", JStr "0712345678")];
                      c_balance := 5000; c_key := "sk_live_key" |}
                   (holding 5000))))
    = Some (Provider ListProviders (HttpResponse true (Some banksData))) /\
    truthy (get_opt banksData "status") = true /\
    get banksData "data" = inl (JArr (before ++ p :: after)) /\
    matches_provider (JStr "mpesa") p = inl true /\
    Forall (fun b => matches_provider (JStr "mpesa") b = inl false) before /\
    JStr "MPESA" = get_opt p "code" /\
    JStr "alice@example.com" = or_else (user_email alice) (JStr "User").
Proof.
  refine (mobile_recipient_uses_the_listed_channel calm
            {| c_user := alice; c_amount := 3000; c_method := JStr "mpesa";
               c_details := JObj [("phone_number", JStr "0712345678")];
               c_balance := 5000; c_key := "sk_live_key" |}
            (holding 5000) _ _ _ _ (JStr "254712345678") _
            (provider_ok [("recipient_code", JStr "RCP_1")])
            (surjective_pairing _) eq_refl _).
  vm_compute. right; left. reflexivity.
Defined.

(** ** Before the validations *)

(** X20. Authentication comes first: when the credential does not resolve
    to a user, or resolves with an error, the answer is 401 'Unauthorized'
    whatever the body is (readable or not), and nothing is logged or
    changed. *)
Theorem authentication_comes_first
    (w : world) (req : request) (s : state) (found : option user) (error : option string) :
  String.eqb (method req) "OPTIONS" = false ->
  getUser w = AuthResult found error ->
  found = None \/ error <> None ->
  serve w req s = ({| status := 401; body := Some [("error", JStr "Unauthorized")] |}, s).
Proof.
  intros Hm Hu Hbad. apply serve_returns; [exact Hm |].
  unfold withdraw, validate. apply bind_stop, bind_stop.
  unfold authenticate. rewrite Hu.
  destruct error as [e |]; [reflexivity |].
  destruct found as [u |]; [| reflexivity].
  destruct Hbad as [Hnone | Herr]; [discriminate | contradiction].
Qed.

Lemma authentication_comes_first_witness :
  serve stranger {| method := "POST"; json_body := None |} (holding 5000)
  = ({| status := 401; body := Some [("error", JStr "Unauthorized")] |}, holding 5000).
Proof.
  apply (authentication_comes_first stranger {| method := "POST"; json_body := None |}
           (holding 5000) None (Some "invalid JWT")); [reflexivity | reflexivity |].
  left. reflexivity.
Defined.

(** X21. A body that is not JSON, or is the JSON value [null], is not
    refused as a bad request: reading it throws, and the authenticated
    caller gets the catch-all 500 'Internal server error' with the
    exception's message under [details]; nothing is logged or changed. *)
Theorem unreadable_body_is_a_server_error
    (w : world) (req : request) (s : state) (u : user) :
  String.eqb (method req) "OPTIONS" = false ->
  getUser w = AuthResult (Some u) None ->
  json_body req = None \/ json_body req = Some JNull ->
  exists msg,
    serve w req s =
    ({| status := 500;
        body := Some [("error", JStr "Internal server error"); ("details", JStr msg)] |}, s).
Proof.
  intros Hm Hu Hbody.
  assert (Hthrow : exists msg, read_request req s = (Throw msg, s)).
  { unfold read_request. destruct Hbody as [-> | ->]; eexists; reflexivity. }
  destruct Hthrow as [msg Hthrow]. exists msg.
  unfold serve, withdraw, validate. rewrite Hm.
  unfold bind at 1. unfold bind at 1.
  rewrite (authenticate_run _ _ _ Hu).
  unfold bind at 1. rewrite Hthrow. reflexivity.
Qed.

Lemma unreadable_body_is_a_server_error_witness :
  exists msg,
    serve calm {| method := "POST"; json_body := Some JNull |} (holding 5000) =
    ({| status := 500;
        body := Some [("error", JStr "Internal server error"); ("details", JStr msg)] |},
     holding 5000).
Proof.
  apply (unreadable_body_is_a_server_error calm
           {| method := "POST"; json_body := Some JNull |} (holding 5000) alice);
    [reflexivity | reflexivity | right; reflexivity].
Defined.

Lemma serve_response_kinds_witness :
  fst (serve calm (bank_request 20) (holding 5000)) = {| status := 200; body := None |} \/
  (status (fst (serve calm (bank_request 20) (holding 5000))) = 200%Z /\
   succeeded (fst (serve calm (bank_request 20) (holding 5000)))) \/
  refusal (fst (serve calm (bank_request 20) (holding 5000))).
Proof.
  apply (serve_response_kinds calm (bank_request 20) (holding 5000)
           (snd (serve calm (bank_request 20) (holding 5000)))).
  apply surjective_pairing.
Defined.

(** ** The bank recipient *)


